(** * saleor/product/utils/__init__.py

    A shallow embedding of the four product utilities
    ([calculate_revenue_for_variant], [delete_categories],
    [collect_categories_tree_products], [get_products_ids_without_variants])
    and the properties their specification states about them.

    Python dictionaries and sets are stdpp's [gmap] and [gset]; database
    tables are lists of rows in table order; a Django [QuerySet] is a lazy
    query value that is evaluated against the database state of the moment
    it is iterated, updated or deleted. *)

From Stdlib Require Import ZArith List Bool Lia.
From stdpp Require Import base option list gmap strings.

Set Default Proof Using "Type".
Local Open Scope Z_scope.

(** ** Exceptions and outcomes *)

(** A UUID is a 128-bit number. *)
Abbreviation UUID := N.

(** The statements the utilities send to the database. *)
Inductive stmt : Type :=
  | SelectCategories
  | SelectDescendants (of_category : Z)
  | UpdateChannelListings
  | SelectProducts
  | DeleteCategories
  | SelectChannelIds
  | SelectProductsWithoutVariants.

Inductive exn : Type :=
  | KeyError (key : UUID)
  | TypeError
  | DatabaseError (at_stmt : stmt).

Inductive result (A : Type) : Type :=
  | Return (a : A)
  | Raise (e : exn).
Arguments Return {A} a.
Arguments Raise {A} e.

(** ** The taxed-money value type

    [TaxedMoney], [zero_taxed_money] and the [+] of taxed money come from
    [core.taxes]; the utilities only call them, so they are an interface
    here. *)
Class TaxedMoneyOps (T : Type) : Type := {
  zero_taxed_money : string -> T;
  taxed_add : T -> T -> T
}.

(** An instance to compute with: net and gross amounts in minor units. *)
Record MinorUnits : Type := mkMinorUnits {
  net : Z;
  gross : Z;
  currency : string
}.

#[export] Instance MinorUnits_ops : TaxedMoneyOps MinorUnits := {|
  zero_taxed_money c := mkMinorUnits 0 0 c;
  taxed_add a b := mkMinorUnits (net a + net b) (gross a + gross b) (currency a)
|}.

(** ** Orders *)

Record ProductVariant : Type := mkProductVariant {
  variant_id : Z;
  variant_product_id : Z
}.

(** A [datetime.date] or a [datetime.datetime], the latter naive or aware
    of its time zone; an aware one is given by its instant. *)
Inductive temporal : Type :=
  | date (ordinal : Z)
  | naive_datetime (microseconds : Z)
  | aware_datetime (utc_microseconds : Z).

(** [a >= b]. Python orders two dates, two naive datetimes and two aware
    datetimes; on every other pair [>=] raises [TypeError], which is [None]
    here. *)
Definition temporal_ge (a b : temporal) : option bool :=
  match a, b with
  | date x, date y => Some (x >=? y)
  | naive_datetime x, naive_datetime y => Some (x >=? y)
  | aware_datetime x, aware_datetime y => Some (x >=? y)
  | _, _ => None
  end.

Record Order : Type := mkOrder {
  created_at : temporal
}.

Record OrderLine (T : Type) : Type := mkOrderLine {
  order_id : UUID;
  total_price : T
}.
Arguments mkOrderLine {T} _ _.
Arguments order_id {T} _.
Arguments total_price {T} _.

Section Revenue.
Context {T : Type} `{TaxedMoneyOps T}.

(** The [for] loop over the remaining lines:
    [order = orders_dict[order_line.order_id]], then the comparison, which
    raises when the two dates are not of one kind, and the [+=]. *)
Fixpoint revenue_loop (start_date : temporal) (orders_dict : gmap UUID Order)
    (revenue : T) (order_lines : list (OrderLine T)) : result T :=
  match order_lines with
  | [] => Return revenue
  | order_line :: rest =>
      match orders_dict !! order_id order_line with
      | None => Raise (KeyError (order_id order_line))
      | Some order =>
          match temporal_ge (created_at order) start_date with
          | None => Raise TypeError
          | Some true =>
              revenue_loop start_date orders_dict
                (taxed_add revenue (total_price order_line)) rest
          | Some false => revenue_loop start_date orders_dict revenue rest
          end
      end
  end.

Definition calculate_revenue_for_variant (variant : ProductVariant)
    (start_date : temporal) (order_lines : list (OrderLine T))
    (orders_dict : gmap UUID Order) (currency_code : string) : result T :=
  let revenue := zero_taxed_money currency_code in
  revenue_loop start_date orders_dict revenue order_lines.

(** The lines that count towards the revenue: their order was created at or
    after [start_date]. *)
Definition in_window (start_date : temporal) (orders_dict : gmap UUID Order)
    (order_line : OrderLine T) : bool :=
  match orders_dict !! order_id order_line with
  | Some order => default false (temporal_ge (created_at order) start_date)
  | None => false
  end.

(** [zero + p1 + p2 + ...], added from the left as the loop does. *)
Definition sum_from (zero : T) (prices : list T) : T :=
  fold_left taxed_add prices zero.

End Revenue.

(** ** The tables *)

(** Modelled from the spec: the [Category] model and its tree manager are not
    part of these sources. The spec speaks of a "category tree" and of "child
    node" querysets: a row carries the key of its parent, and the roots have
    none. *)
Record Category : Type := mkCategory {
  category_pk : Z;
  category_parent : option Z
}.

Record Product : Type := mkProduct {
  product_id : Z;
  product_category_id : option Z
}.

Record ProductChannelListing : Type := mkProductChannelListing {
  listing_pk : Z;
  listing_product_id : Z;
  channel_id : Z;
  is_published : bool;
  published_at : option Z
}.

Record Database : Type := mkDatabase {
  categories : list Category;
  products : list Product;
  variants : list ProductVariant;
  channel_listings : list ProductChannelListing
}.

#[export] Instance Category_eq_dec : EqDecision Category.
Proof. solve_decision. Defined.
#[export] Instance Product_eq_dec : EqDecision Product.
Proof. solve_decision. Defined.
#[export] Instance ProductChannelListing_eq_dec : EqDecision ProductChannelListing.
Proof. solve_decision. Defined.

(** ** Lazy querysets

    A queryset is a query, not its rows: building one reads nothing, and each
    evaluation runs the query against the tables as they are then. *)

(** [QuerySet[Product]], as the utilities build them. *)
Inductive ProductQuerySet : Type :=
  | ProductNone                         (* Product.objects.none() *)
  | ProductsOf (category : Z)           (* category.products.all() *)
  | ProductOr (a b : ProductQuerySet).  (* a | b *)

(** [a | b]: an empty queryset on either side gives the other one. *)
Definition qs_or (a b : ProductQuerySet) : ProductQuerySet :=
  match a, b with
  | ProductNone, _ => b
  | _, ProductNone => a
  | _, _ => ProductOr a b
  end.

Fixpoint product_matches (q : ProductQuerySet) (p : Product) : bool :=
  match q with
  | ProductNone => false
  | ProductsOf category => bool_decide (product_category_id p = Some category)
  | ProductOr a b => product_matches a p || product_matches b p
  end.

Definition run_products (db : Database) (q : ProductQuerySet) : list Product :=
  filter (λ p, product_matches q p) (products db).

(** [Category.objects.select_for_update().filter(pk__in=ids)]. *)
Inductive CategoryQuerySet : Type :=
  | CategoryPkIn (ids : list Z).

Definition run_categories (db : Database) (q : CategoryQuerySet) : list Category :=
  match q with
  | CategoryPkIn ids => filter (λ c, category_pk c ∈ ids) (categories db)
  end.

(** [ProductChannelListing.objects.filter(product__in=products)]: the
    products are a subquery, run again whenever the listings are. *)
Inductive ListingQuerySet : Type :=
  | ListingProductIn (products : ProductQuerySet).

Definition run_listings (db : Database) (q : ListingQuerySet)
    : list ProductChannelListing :=
  match q with
  | ListingProductIn products =>
      filter (λ l, listing_product_id l ∈ product_id <$> run_products db products)
        (channel_listings db)
  end.

(** ** The category tree *)

(** Walks up from [parent], at most [fuel] rows, looking for [ancestor]. *)
Fixpoint has_ancestor (table : list Category) (fuel : nat) (ancestor : Z)
    (parent : option Z) : bool :=
  match fuel, parent with
  | S fuel', Some parent_pk =>
      bool_decide (parent_pk = ancestor) ||
      match list_find (λ c, category_pk c = parent_pk) table with
      | Some (_, row) => has_ancestor table fuel' ancestor (category_parent row)
      | None => false
      end
  | _, _ => false
  end.

Definition is_descendant (db : Database) (category descendant : Category) : bool :=
  has_ancestor (categories db) (length (categories db)) (category_pk category)
    (category_parent descendant).

(** Modelled from the spec: [Category.get_descendants] belongs to the tree
    manager, which is not part of these sources. The spec has the products
    collected "from all levels in category tree": the descendants of a
    category are the rows that reach it by following parents, the category
    itself left out. *)
Definition get_descendants (db : Database) (category : Category) : list Category :=
  filter (λ d, is_descendant db category d) (categories db).

(** The parent references lead from [parent], through rows of the table, up
    to [ancestor]: the category that is [ancestor] is above at some level. *)
Inductive reaches (table : list Category) (ancestor : Z) : option Z -> Prop :=
  | reaches_parent : reaches table ancestor (Some ancestor)
  | reaches_above parent_pk i row :
      list_find (λ c, category_pk c = parent_pk) table = Some (i, row) ->
      reaches table ancestor (category_parent row) ->
      reaches table ancestor (Some parent_pk).

(** The rows passed on the way up, until [ancestor] is met first. *)
Inductive walk (table : list Category) (ancestor : Z)
    : option Z -> list Category -> Prop :=
  | walk_here : walk table ancestor (Some ancestor) []
  | walk_up parent_pk i row rows :
      parent_pk ≠ ancestor ->
      list_find (λ c, category_pk c = parent_pk) table = Some (i, row) ->
      walk table ancestor (category_parent row) rows ->
      walk table ancestor (Some parent_pk) (row :: rows).

(** ** Writes *)

Definition unpublish (l : ProductChannelListing) : ProductChannelListing :=
  mkProductChannelListing (listing_pk l) (listing_product_id l) (channel_id l)
    false None.

(** [product_channel_listing.update(is_published=False, published_at=None)]. *)
Definition update_unpublished (db : Database) (q : ListingQuerySet) : Database :=
  let hit := run_listings db q in
  mkDatabase (categories db) (products db) (variants db)
    ((λ l, if bool_decide (l ∈ hit) then unpublish l else l) <$> channel_listings db).

(** The rows a delete of [q] removes: the selected rows and, through the
    parent reference, the rows below them. *)
Definition doomed (db : Database) (q : CategoryQuerySet) : list Z :=
  let selected := run_categories db q in
  category_pk <$> (selected ++ (selected ≫= get_descendants db)).

Definition clear_category (gone : list Z) (p : Product) : Product :=
  match product_category_id p with
  | Some c => if bool_decide (c ∈ gone) then mkProduct (product_id p) None else p
  | None => p
  end.

(** Modelled from the spec: what [categories.delete()] does to the rows that
    refer to a deleted category is declared with the models, which are not
    part of these sources. The spec has a "cascading deletion of a category
    tree", and by the docstring of [delete_categories] the products of a
    deleted category stay, unpublished: the rows below a deleted category go
    with it, and a product of a deleted category loses its category. *)
Definition delete_rows (db : Database) (q : CategoryQuerySet) : Database :=
  let gone := doomed db q in
  mkDatabase (filter (λ c, category_pk c ∉ gone) (categories db))
    (clear_category gone <$> products db) (variants db) (channel_listings db).

(** ** What the loops build

    The queries the two collecting loops end with, read off the rows they
    iterate over. *)

(** The loop of [collect_categories_tree_products]. *)
Definition tree_query (db : Database) (category : Category) : ProductQuerySet :=
  fold_left (λ products descendant,
               qs_or products (ProductsOf (category_pk descendant)))
    (get_descendants db category) (ProductsOf (category_pk category)).

(** The loop of [delete_categories] over the selected categories. *)
Definition forest_query (db : Database) (selected : list Category)
    : ProductQuerySet :=
  fold_left (λ products category, qs_or products (tree_query db category))
    selected ProductNone.

(** A product of [category] or of one of its descendants. *)
Definition in_subtree (db : Database) (category : Category) (p : Product) : Prop :=
  product_category_id p = Some (category_pk category) ∨
  ∃ d, d ∈ get_descendants db category ∧
       product_category_id p = Some (category_pk d).

(** ** Events *)

Inductive WebhookEventAsyncType : Type :=
  | CATEGORY_DELETED
  | PRODUCT_UPDATED.

(** What [call_event] is given: the callable and its arguments. *)
Inductive event (Manager Webhook : Type) : Type :=
  | category_deleted (manager : Manager) (category : Category)
      (webhooks : list Webhook)
  | product_updated (manager : Manager) (product : Product)
      (webhooks : list Webhook)
  | mark_active_catalogue_promotion_rules_as_dirty (channel_ids : gset Z).
Arguments category_deleted {Manager Webhook} _ _ _.
Arguments product_updated {Manager Webhook} _ _ _.
Arguments mark_active_catalogue_promotion_rules_as_dirty {Manager Webhook} _.

(** What the outside sees of a run, in the order it happens. *)
Inductive effect (Manager Webhook : Type) : Type :=
  | Unpublished (listings : list Z)
  | CategoriesDeleted (pks : list Z)
  | Emitted (e : event Manager Webhook).
Arguments Unpublished {Manager Webhook} _.
Arguments CategoriesDeleted {Manager Webhook} _.
Arguments Emitted {Manager Webhook} _.

Record world (Manager Webhook : Type) : Type := mkWorld {
  database : Database;
  trace : list (effect Manager Webhook)
}.
Arguments mkWorld {Manager Webhook} _ _.
Arguments database {Manager Webhook} _.
Arguments trace {Manager Webhook} _.

(** A run ends normally with a value, or with an exception; either way it
    leaves a world behind. *)
Inductive outcome (W A : Type) : Type :=
  | Done (a : A) (w : W)
  | Failed (e : exn) (w : W).
Arguments Done {W A} _ _.
Arguments Failed {W A} _ _.

Definition M (W A : Type) : Type := W -> outcome W A.

#[export] Instance M_ret {W} : MRet (M W) := λ A a w, Done a w.

#[export] Instance M_bind {W} : MBind (M W) := λ A B f m w,
  match m w with
  | Done a w' => f a w'
  | Failed e w' => Failed e w'
  end.

(** [for x in xs: body(x)]. *)
Fixpoint for_each {W A} (xs : list A) (body : A -> M W unit) : M W unit :=
  match xs with
  | [] => mret tt
  | x :: rest => body x ;; for_each rest body
  end.

(** [for x in xs: acc = body(acc, x)]. *)
Fixpoint for_fold {W A B} (xs : list A) (acc : B) (body : B -> A -> M W B)
    : M W B :=
  match xs with
  | [] => mret acc
  | x :: rest => acc' ← body acc x; for_fold rest acc' body
  end.

Section Utilities.
Context {Manager Webhook : Type}.
Variable get_webhooks_for_event : WebhookEventAsyncType -> list Webhook.
(** The statements on which the database raises. *)
Variable db_fails : stmt -> bool.

Abbreviation World := (world Manager Webhook).
Abbreviation Run := (M World).

(** Every statement goes through here. *)
Definition execute {A} (s : stmt) (read : Database -> A)
    (write : Database -> Database) : Run A :=
  λ w,
    if db_fails s then Failed (DatabaseError s) w
    else Done (read (database w)) (mkWorld (write (database w)) (trace w)).

Definition record (e : effect Manager Webhook) : Run unit :=
  λ w, Done tt (mkWorld (database w) (trace w ++ [e])).

(** Modelled from the spec: [call_event] is in [core.utils.events], not part
    of these sources. The spec has the function "emit notification events":
    the event is emitted, after what was emitted before it. *)
Definition call_event (e : event Manager Webhook) : Run unit :=
  record (Emitted e).

(** Modelled from the spec: [traced_atomic_transaction] is in
    [core.tracing], not part of these sources. The spec has the side effects
    "inside a transaction boundary": when the body raises, what it did is
    rolled back and the exception goes on to the caller. *)
Definition traced_atomic_transaction {A} (body : Run A) : Run A :=
  λ w,
    match body w with
    | Done a w' => Done a w'
    | Failed e _ => Failed e w
    end.

Definition collect_categories_tree_products (category : Category)
    : Run ProductQuerySet :=
  let products := ProductsOf (category_pk category) in
  descendants ← execute (SelectDescendants (category_pk category))
                  (λ db, get_descendants db category) id;
  mret (fold_left
          (λ products descendant,
             qs_or products (ProductsOf (category_pk descendant)))
          descendants products).

Definition delete_categories_body (categories_ids : list Z) (manager : Manager)
    : Run unit :=
  let categories := CategoryPkIn categories_ids in
  (* categories.prefetch_related("products") builds a queryset nobody uses *)
  let products := ProductNone in
  (* the loop evaluates [categories]; the queryset keeps these rows *)
  fetched ← execute SelectCategories (λ db, run_categories db categories) id;
  products ← for_fold fetched products
               (λ products category,
                  collected ← collect_categories_tree_products category;
                  mret (qs_or products collected));
  let product_channel_listing := ListingProductIn products in
  hit ← execute UpdateChannelListings
          (λ db, listing_pk <$> run_listings db product_channel_listing)
          (λ db, update_unpublished db product_channel_listing);
  record (Unpublished hit);;
  products ← execute SelectProducts (λ db, run_products db products) id;
  let category_instances := fetched in
  gone ← execute DeleteCategories (λ db, doomed db categories)
           (λ db, delete_rows db categories);
  record (CategoriesDeleted gone);;
  let webhooks := get_webhooks_for_event CATEGORY_DELETED in
  for_each category_instances
    (λ category, call_event (category_deleted manager category webhooks));;
  let webhooks := get_webhooks_for_event PRODUCT_UPDATED in
  for_each products
    (λ product, call_event (product_updated manager product webhooks));;
  channel_ids ← execute SelectChannelIds
                  (λ db, list_to_set
                           (channel_id <$> run_listings db product_channel_listing))
                  id;
  call_event (mark_active_catalogue_promotion_rules_as_dirty channel_ids).

Definition delete_categories (categories_ids : list Z) (manager : Manager)
    : Run unit :=
  traced_atomic_transaction (delete_categories_body categories_ids manager).

Definition get_products_ids_without_variants (products_list : list Product)
    : Run (list Z) :=
  let products_ids := product_id <$> products_list in
  execute SelectProductsWithoutVariants
    (λ db,
       product_id <$>
         filter (λ p, product_id p ∈ products_ids ∧
                      product_id p ∉ variant_product_id <$> variants db)
           (products db))
    id.

End Utilities.

(** ** Statements of a run *)

(** The statements [delete_categories] sends, in the order of the source: the
    selected categories are read when the loop iterates over them, their
    descendants one category after the other, then come the update, the
    products, the delete and the channels. *)
Definition issued_statements (db : Database) (categories_ids : list Z)
    : list stmt :=
  [SelectCategories] ++
  ((λ c, SelectDescendants (category_pk c)) <$>
     run_categories db (CategoryPkIn categories_ids)) ++
  [UpdateChannelListings; SelectProducts; DeleteCategories; SelectChannelIds].

(** ** Sample data *)

(** Categories 1 > 2 > 3 and a separate root 4; a product in 1, one in 3,
    one in 4 and one in no category; one listing per product that has a
    category; a variant of product 10 only. *)
Definition sample_db : Database :=
  mkDatabase
    [mkCategory 1 None; mkCategory 2 (Some 1); mkCategory 3 (Some 2);
     mkCategory 4 None]
    [mkProduct 10 (Some 1); mkProduct 11 (Some 3); mkProduct 12 (Some 4);
     mkProduct 13 None]
    [mkProductVariant 1000 10]
    [mkProductChannelListing 100 10 5 true (Some 77);
     mkProductChannelListing 101 11 6 true None;
     mkProductChannelListing 102 12 7 true (Some 1)].

Definition sample_world : world unit Z := mkWorld sample_db [].

(** One category with one product, listed and published on channel 5. *)
Definition single_db : Database :=
  mkDatabase [mkCategory 1 None] [mkProduct 10 (Some 1)] []
    [mkProductChannelListing 100 10 5 true (Some 77)].

Definition single_world : world unit Z := mkWorld single_db [].

Definition sample_webhooks (t : WebhookEventAsyncType) : list Z :=
  match t with
  | CATEGORY_DELETED => [1]
  | PRODUCT_UPDATED => [2]
  end.

(** A database that answers every statement. *)
Definition no_faults (s : stmt) : bool := false.

(** A database that refuses the delete. *)
Definition delete_fails (s : stmt) : bool :=
  match s with
  | DeleteCategories => true
  | _ => false
  end.

Definition sample_variant : ProductVariant := mkProductVariant 1000 10.

(** Order 1 of instant 10 and order 2 of instant 9, both aware. *)
Definition sample_orders : gmap UUID Order :=
  <[1%N := mkOrder (aware_datetime 10)]>
    (<[2%N := mkOrder (aware_datetime 9)]> ∅).

(** A start of the same kind as the orders' [created_at]. *)
Definition sample_start : temporal := aware_datetime 10.

Definition sample_lines : list (OrderLine MinorUnits) :=
  [mkOrderLine 1%N (mkMinorUnits 5 6 "USD");
   mkOrderLine 2%N (mkMinorUnits 50 60 "USD")].

(** ** Proof steps *)

(** Runs the outermost bind of the goal. *)
Ltac run_bind :=
  lazymatch goal with
  | |- context [@mbind _ _ ?A ?B ?f ?m ?w] =>
      change (@mbind _ _ A B f m w)
        with (match m w with
              | Done a w' => f a w'
              | Failed e w' => Failed e w'
              end)
  end.

(** Membership in a list that computes. *)
Ltac in_list :=
  vm_compute;
  repeat first [apply list_elem_of_here | apply list_elem_of_further].

(** * Properties *)

(** ** Revenue *)

Section RevenueFacts.
Context {T : Type} `{TaxedMoneyOps T}.

Lemma revenue_loop_present start_date (orders_dict : gmap UUID Order)
    (order_lines : list (OrderLine T)) :
  (∀ l, In l order_lines ->
        ∃ order, orders_dict !! order_id l = Some order ∧
                 is_Some (temporal_ge (created_at order) start_date)) ->
  ∀ revenue,
    revenue_loop start_date orders_dict revenue order_lines =
    Return (sum_from revenue
              (map total_price
                 (List.filter (in_window start_date orders_dict) order_lines))).
Proof.
  induction order_lines as [|l rest IH]; intros Hall revenue; [reflexivity|].
  cbn [revenue_loop List.filter].
  destruct (Hall l (or_introl eq_refl)) as (o & Ho & [b Hb]).
  unfold in_window at 1. rewrite Ho, Hb.
  assert (Hrest : ∀ l', In l' rest ->
                        ∃ order, orders_dict !! order_id l' = Some order ∧
                                 is_Some (temporal_ge (created_at order)
                                            start_date))
    by (intros l' Hl'; apply Hall; now right).
  destruct b; rewrite (IH Hrest); reflexivity.
Qed.

Lemma revenue_loop_missing start_date (orders_dict : gmap UUID Order)
    (order_lines : list (OrderLine T)) :
  (∀ l order, In l order_lines -> orders_dict !! order_id l = Some order ->
              is_Some (temporal_ge (created_at order) start_date)) ->
  (∃ l, In l order_lines ∧ orders_dict !! order_id l = None) ->
  ∀ revenue,
    ∃ key, revenue_loop start_date orders_dict revenue order_lines =
           Raise (KeyError key).
Proof.
  induction order_lines as [|l rest IH]; intros Hcmp (l0 & Hin & Hnone) revenue.
  - destruct Hin.
  - cbn [revenue_loop].
    destruct (orders_dict !! order_id l) as [o|] eqn:Ho.
    + destruct Hin as [->|Hin]; [congruence|].
      destruct (Hcmp l o (or_introl eq_refl) Ho) as [b ->].
      assert (Hrest : ∀ l' order, In l' rest ->
                                  orders_dict !! order_id l' = Some order ->
                                  is_Some (temporal_ge (created_at order)
                                             start_date))
        by (intros l' o' Hl'; apply Hcmp; now right).
      destruct b; apply IH; eauto.
    + eauto.
Qed.

(** Every line has its order, or some line has none. *)
Lemma orders_present_or_missing (orders_dict : gmap UUID Order)
    (order_lines : list (OrderLine T)) :
  (∀ l, In l order_lines -> is_Some (orders_dict !! order_id l)) ∨
  (∃ l, In l order_lines ∧ orders_dict !! order_id l = None).
Proof.
  induction order_lines as [|l rest [IH|(l0 & Hin & Hnone)]].
  - left. intros l [].
  - destruct (orders_dict !! order_id l) as [o|] eqn:Ho.
    + left. intros l' [<-|Hl']; [rewrite Ho; eauto | auto].
    + right. exists l. split; [now left | assumption].
  - right. exists l0. split; [now right | assumption].
Qed.

(** The loop ends with a value, with the [KeyError] of a missing order or
    with the [TypeError] of a comparison. *)
Lemma revenue_loop_outcome start_date (orders_dict : gmap UUID Order)
    (order_lines : list (OrderLine T)) revenue :
  (∃ revenue', revenue_loop start_date orders_dict revenue order_lines =
               Return revenue') ∨
  (∃ key, revenue_loop start_date orders_dict revenue order_lines =
          Raise (KeyError key)) ∨
  revenue_loop start_date orders_dict revenue order_lines = Raise TypeError.
Proof.
  revert revenue. induction order_lines as [|l rest IH]; intros revenue;
    cbn [revenue_loop]; [eauto|].
  destruct (orders_dict !! order_id l) as [o|]; [|eauto].
  destruct (temporal_ge (created_at o) start_date) as [[]|]; auto.
Qed.

(** C1, as the code has it: when [orders_dict] has the order of every line
    and the [created_at] of each of these orders can be compared with
    [start_date], the revenue is the zero taxed money of the currency plus
    the [total_price] of exactly the lines whose order was created at or
    after [start_date], added in the order of the lines; no line at all gives
    the zero. *)
Theorem calculate_revenue_sums_window variant start_date
    (order_lines : list (OrderLine T)) (orders_dict : gmap UUID Order)
    currency_code :
  (∀ l, In l order_lines ->
        ∃ order, orders_dict !! order_id l = Some order ∧
                 is_Some (temporal_ge (created_at order) start_date)) ->
  calculate_revenue_for_variant variant start_date order_lines orders_dict
    currency_code =
  Return (sum_from (zero_taxed_money currency_code)
            (map total_price
               (List.filter
                  (λ l, match orders_dict !! order_id l with
                        | Some order =>
                            bool_decide (temporal_ge (created_at order)
                                           start_date = Some true)
                        | None => false
                        end)
                  order_lines))) ∧
  calculate_revenue_for_variant variant start_date [] orders_dict currency_code =
  Return (zero_taxed_money currency_code).
Proof.
  intros Hall. split; [|reflexivity].
  unfold calculate_revenue_for_variant.
  rewrite (revenue_loop_present _ _ _ Hall). do 3 f_equal.
  apply filter_ext_in. intros l Hl. unfold in_window.
  destruct (Hall l Hl) as (o & -> & [b ->]). now destruct b.
Qed.

(** C9: the variant is not looked at; two calls that differ only in it
    return the same. *)
Theorem calculate_revenue_ignores_variant variant1 variant2 start_date
    (order_lines : list (OrderLine T)) (orders_dict : gmap UUID Order)
    currency_code :
  calculate_revenue_for_variant variant1 start_date order_lines orders_dict
    currency_code =
  calculate_revenue_for_variant variant2 start_date order_lines orders_dict
    currency_code.
Proof. reflexivity. Qed.

(** C10, as the code has it: when the [created_at] of every order a line
    refers to can be compared with [start_date], the call raises [KeyError]
    exactly when some line's [order_id] is no key of [orders_dict]; it raises
    nothing else, and with every key present it returns. *)
Theorem calculate_revenue_key_error variant start_date
    (order_lines : list (OrderLine T)) (orders_dict : gmap UUID Order)
    currency_code :
  (∀ l order, In l order_lines -> orders_dict !! order_id l = Some order ->
              is_Some (temporal_ge (created_at order) start_date)) ->
  ((∃ key, calculate_revenue_for_variant variant start_date order_lines
             orders_dict currency_code = Raise (KeyError key)) ↔
   (∃ l, In l order_lines ∧ orders_dict !! order_id l = None)) ∧
  (∀ e, calculate_revenue_for_variant variant start_date order_lines
          orders_dict currency_code = Raise e -> ∃ key, e = KeyError key) ∧
  ((∀ l, In l order_lines -> is_Some (orders_dict !! order_id l)) ->
   ∃ revenue, calculate_revenue_for_variant variant start_date order_lines
                orders_dict currency_code = Return revenue).
Proof.
  intros Hcmp. unfold calculate_revenue_for_variant.
  destruct (orders_present_or_missing orders_dict order_lines) as [Hall|Hmiss].
  - assert (Hboth : ∀ l, In l order_lines ->
                         ∃ order, orders_dict !! order_id l = Some order ∧
                                  is_Some (temporal_ge (created_at order)
                                             start_date)).
    { intros l Hl. destruct (Hall l Hl) as [o Ho]. eauto. }
    rewrite (revenue_loop_present start_date _ _ Hboth). repeat split.
    + intros [key Hkey]. discriminate.
    + intros (l & Hin & Hnone). destruct (Hall l Hin) as [o Ho]. congruence.
    + intros e He. discriminate.
    + eauto.
  - destruct (revenue_loop_missing start_date _ _ Hcmp Hmiss
                (zero_taxed_money currency_code)) as [key Hkey].
    rewrite Hkey. repeat split.
    + intros _. exact Hmiss.
    + eauto.
    + intros e [= <-]. eauto.
    + intros Hall. destruct Hmiss as (l & Hin & Hnone).
      destruct (Hall l Hin) as [o Ho]. congruence.
Qed.

End RevenueFacts.

(** ** Queries *)

Lemma product_matches_qs_or a b p :
  product_matches (qs_or a b) p = product_matches a p || product_matches b p.
Proof.
  destruct a, b; cbn [qs_or product_matches];
    rewrite ?orb_false_r, ?orb_false_l; reflexivity.
Qed.

Lemma product_matches_collected (ds : list Category) q0 p :
  product_matches
    (fold_left (λ products descendant,
                  qs_or products (ProductsOf (category_pk descendant))) ds q0) p
  ↔ product_matches q0 p ∨
    ∃ d, d ∈ ds ∧ product_category_id p = Some (category_pk d).
Proof.
  revert q0. induction ds as [|d ds IH]; intros q0; cbn [fold_left].
  - split; [auto|]. intros [?|(d & Hd & _)]; [assumption|]. inversion Hd.
  - rewrite IH, product_matches_qs_or, orb_True. cbn [product_matches].
    rewrite bool_decide_spec. split.
    + intros [[?|?]|(d' & Hd' & ?)]; eauto using list_elem_of_here.
      right. exists d'. split; [now apply list_elem_of_further | assumption].
    + intros [?|(d' & Hd' & ?)]; [auto|].
      apply elem_of_cons in Hd' as [->|Hd']; eauto.
Qed.

Lemma product_matches_tree db category p :
  product_matches (tree_query db category) p ↔ in_subtree db category p.
Proof.
  unfold tree_query, in_subtree. rewrite product_matches_collected.
  cbn [product_matches]. now rewrite bool_decide_spec.
Qed.

Lemma product_matches_folded db (selected : list Category) q0 p :
  product_matches
    (fold_left (λ products category, qs_or products (tree_query db category))
       selected q0) p
  ↔ product_matches q0 p ∨ ∃ c, c ∈ selected ∧ in_subtree db c p.
Proof.
  revert q0. induction selected as [|c cs IH]; intros q0; cbn [fold_left].
  - split; [auto|]. intros [?|(c & Hc & _)]; [assumption|]. inversion Hc.
  - rewrite IH, product_matches_qs_or, orb_True, product_matches_tree. split.
    + intros [[?|?]|(c' & Hc' & ?)]; eauto using list_elem_of_here.
      right. exists c'. split; [now apply list_elem_of_further | assumption].
    + intros [?|(c' & Hc' & ?)]; [auto|].
      apply elem_of_cons in Hc' as [->|Hc']; eauto.
Qed.

Lemma product_matches_forest db selected p :
  product_matches (forest_query db selected) p
  ↔ ∃ c, c ∈ selected ∧ in_subtree db c p.
Proof.
  unfold forest_query. rewrite product_matches_folded. cbn [product_matches].
  split; [intros [[]|?]; assumption | auto].
Qed.

Lemma elem_of_run_products db q p :
  p ∈ run_products db q ↔ product_matches q p ∧ p ∈ products db.
Proof. unfold run_products. now rewrite list_elem_of_filter. Qed.

Lemma elem_of_run_categories db ids c :
  c ∈ run_categories db (CategoryPkIn ids)
  ↔ category_pk c ∈ ids ∧ c ∈ categories db.
Proof. unfold run_categories. now rewrite list_elem_of_filter. Qed.

Lemma elem_of_run_listings db q l :
  l ∈ run_listings db (ListingProductIn q)
  ↔ (∃ p, p ∈ run_products db q ∧ listing_product_id l = product_id p) ∧
    l ∈ channel_listings db.
Proof.
  unfold run_listings. rewrite list_elem_of_filter, list_elem_of_fmap.
  split; intros [(p & ? & ?) ?]; eauto.
Qed.

(** ** Descendants at any level *)

Lemma has_ancestor_reaches table fuel a p :
  has_ancestor table fuel a p = true -> reaches table a p.
Proof.
  revert p. induction fuel as [|fuel IH]; intros p; [discriminate|].
  destruct p as [k|]; [|discriminate]. cbn [has_ancestor].
  intros [Hk|Hup]%orb_true_iff.
  - apply bool_decide_eq_true in Hk as ->. constructor.
  - destruct (list_find _ table) as [[i row]|] eqn:Hfind; [|discriminate].
    econstructor; eauto.
Qed.

Lemma reaches_walk table a p : reaches table a p -> ∃ rows, walk table a p rows.
Proof.
  induction 1 as [|k i row Hfind _ [rows IH]].
  - eexists. constructor.
  - destruct (decide (k = a)) as [->|Hne].
    + eexists. constructor.
    + eexists. econstructor; eauto.
Qed.

Lemma walk_has_ancestor table a p rows fuel :
  walk table a p rows -> (length rows < fuel)%nat ->
  has_ancestor table fuel a p = true.
Proof.
  intros Hwalk. revert fuel.
  induction Hwalk as [|k i row rows Hne Hfind _ IH]; intros fuel Hfuel;
    (destruct fuel as [|fuel]; [lia|]); cbn [has_ancestor].
  - now rewrite bool_decide_eq_true_2.
  - rewrite Hfind, IH by (cbn [length] in Hfuel; lia). apply orb_true_r.
Qed.

Lemma walk_in_table table a p rows r :
  walk table a p rows -> r ∈ rows -> r ∈ table.
Proof.
  induction 1 as [|k i row rows Hne Hfind _ IH]; intros Hin.
  - inversion Hin.
  - apply elem_of_cons in Hin as [->|Hin]; [|auto].
    apply list_find_Some in Hfind as (Hrow & _). eauto using list_elem_of_lookup_2.
Qed.

(** From any row of a walk on, the rest is the walk from that row. *)
Lemma walk_from table a p rows r :
  walk table a p rows -> r ∈ rows ->
  ∃ front rest, rows = front ++ r :: rest ∧
                walk table a (category_parent r) rest.
Proof.
  induction 1 as [|k i row rows Hne Hfind Hwalk IH]; intros Hin.
  - inversion Hin.
  - apply elem_of_cons in Hin as [->|Hin].
    + exists [], rows. split; [reflexivity|assumption].
    + destruct (IH Hin) as (front & rest & -> & Hrest).
      exists (row :: front), rest. split; [reflexivity|assumption].
Qed.

(** A walk that passes a row twice has a shorter one beside it. *)
Lemma walk_NoDup table a p rows :
  walk table a p rows -> ∃ rows', walk table a p rows' ∧ NoDup rows'.
Proof.
  induction 1 as [|k i row rows Hne Hfind Hwalk (rows' & Hwalk' & Hnodup)].
  - eexists. split; constructor.
  - destruct (decide (row ∈ rows')) as [Hin|Hnotin].
    + destruct (walk_from _ _ _ _ _ Hwalk' Hin) as (front & rest & -> & Hrest).
      exists (row :: rest). split; [econstructor; eauto|].
      apply NoDup_app in Hnodup as (_ & _ & Hnodup). exact Hnodup.
    + exists (row :: rows'). split; [econstructor; eauto|]. now apply NoDup_cons.
Qed.

(** The fuel of [is_descendant] is enough: a walk up from a row of the table
    that passes no row twice is shorter than the table. *)
Lemma reaches_has_ancestor table a d :
  d ∈ table -> reaches table a (category_parent d) ->
  has_ancestor table (length table) a (category_parent d) = true.
Proof.
  intros Hd Hreach.
  destruct (reaches_walk _ _ _ Hreach) as [rows0 Hwalk0].
  destruct (walk_NoDup _ _ _ _ Hwalk0) as (rows & Hwalk & Hnodup).
  assert (Hshort : ∃ rows1, walk table a (category_parent d) rows1 ∧
                            (length rows1 < length table)%nat).
  { destruct (decide (d ∈ rows)) as [Hin|Hnotin].
    - destruct (walk_from _ _ _ _ _ Hwalk Hin) as (front & rest & -> & Hrest).
      exists rest. split; [assumption|].
      assert (Hle : (length (front ++ d :: rest) <= length table)%nat).
      { apply submseteq_length. apply NoDup_submseteq; [assumption|].
        intros r Hr. exact (walk_in_table _ _ _ _ _ Hwalk Hr). }
      rewrite length_app in Hle. cbn [length] in Hle. lia.
    - exists rows. split; [assumption|].
      assert (Hle : (length (d :: rows) <= length table)%nat).
      { apply submseteq_length. apply NoDup_submseteq; [now apply NoDup_cons|].
        intros r [->|Hr]%elem_of_cons; [assumption|].
        exact (walk_in_table _ _ _ _ _ Hwalk Hr). }
      cbn [length] in Hle. lia. }
  destruct Hshort as (rows1 & Hwalk1 & Hlen).
  eapply walk_has_ancestor; eauto.
Qed.

Lemma elem_of_get_descendants db category d :
  d ∈ get_descendants db category ↔
  d ∈ categories db ∧
  reaches (categories db) (category_pk category) (category_parent d).
Proof.
  unfold get_descendants, is_descendant. rewrite list_elem_of_filter, Is_true_true.
  split.
  - intros [Hup Hd]. split; [assumption|]. eauto using has_ancestor_reaches.
  - intros [Hd Hreach]. split; [|assumption]. now apply reaches_has_ancestor.
Qed.

(** ** What the writes leave *)

Lemma doomed_update_unpublished db q categories :
  doomed (update_unpublished db q) categories = doomed db categories.
Proof. reflexivity. Qed.

Lemma run_products_update_unpublished db q products :
  run_products (update_unpublished db q) products = run_products db products.
Proof. reflexivity. Qed.

(** The update unpublishes every listing of a product of the query, whatever
    is deleted afterwards. *)
Lemma delete_keeps_unpublished db q categories p l :
  p ∈ run_products db q ->
  l ∈ channel_listings (delete_rows (update_unpublished db (ListingProductIn q))
                          categories) ->
  listing_product_id l = product_id p ->
  is_published l = false ∧ published_at l = None.
Proof.
  intros Hp Hl Hid. cbn [delete_rows update_unpublished channel_listings] in Hl.
  apply list_elem_of_fmap in Hl as (l0 & -> & Hl0).
  assert (Hhit : l0 ∈ run_listings db (ListingProductIn q)).
  { apply elem_of_run_listings. split; [|assumption].
    exists p. split; [assumption|].
    destruct (bool_decide _) in Hid; exact Hid. }
  rewrite bool_decide_eq_true_2 by assumption. now split.
Qed.

(** No selected row is left after the delete. *)
Lemma delete_removes_selected db ids c :
  c ∈ categories (delete_rows db (CategoryPkIn ids)) -> category_pk c ∉ ids.
Proof.
  cbn [delete_rows categories]. rewrite list_elem_of_filter.
  intros [Hkept Hc] Hids. apply Hkept. unfold doomed.
  apply list_elem_of_fmap. exists c. split; [reflexivity|].
  apply elem_of_app. left. now apply elem_of_run_categories.
Qed.

(** After the delete no product is left in a category the query names:
    the query of [delete_categories] selects nothing any more. *)
Lemma run_products_after_delete db ids :
  let categories := CategoryPkIn ids in
  run_products (delete_rows db categories)
    (forest_query db (run_categories db categories)) = [].
Proof.
  intros categories. apply elem_of_nil_inv. intros p' Hp'.
  apply elem_of_run_products in Hp' as [Hmatch Hin].
  cbn [delete_rows products] in Hin.
  apply list_elem_of_fmap in Hin as (p & -> & _).
  apply product_matches_forest in Hmatch as (c & Hc & Hsub).
  assert (Hgone : ∃ k, product_category_id (clear_category (doomed db categories) p)
                       = Some k ∧ k ∈ doomed db categories).
  { unfold doomed. destruct Hsub as [Hk|(d & Hd & Hk)].
    - exists (category_pk c). split; [assumption|].
      apply list_elem_of_fmap. exists c. split; [reflexivity|].
      apply elem_of_app. now left.
    - exists (category_pk d). split; [assumption|].
      apply list_elem_of_fmap. exists d. split; [reflexivity|].
      apply elem_of_app. right. apply list_elem_of_bind. eauto. }
  destruct Hgone as (k & Hk & Hin). revert Hk. unfold clear_category.
  destruct (product_category_id p) as [k0|] eqn:Hk0; [|now rewrite Hk0].
  destruct (bool_decide (k0 ∈ doomed db categories)) eqn:Hdec.
  - discriminate.
  - rewrite Hk0. intros [= ->]. now apply bool_decide_eq_false in Hdec.
Qed.

Lemma run_listings_after_delete db ids q :
  let categories := CategoryPkIn ids in
  run_listings
    (delete_rows (update_unpublished db q) categories)
    (ListingProductIn (forest_query db (run_categories db categories))) = [].
Proof.
  intros categories. apply elem_of_nil_inv. intros l Hl.
  apply elem_of_run_listings in Hl as [(p & Hp & _) _].
  change (run_categories db categories)
    with (run_categories (update_unpublished db q) categories) in Hp.
  change (forest_query db) with (forest_query (update_unpublished db q)) in Hp.
  pose proof (run_products_after_delete (update_unpublished db q) ids) as Hnone.
  cbv zeta in Hnone. fold categories in Hnone. rewrite Hnone in Hp.
  inversion Hp.
Qed.

(** ** Runs *)

Section UtilitiesFacts.
Context {Manager Webhook : Type}.
Variable get_webhooks_for_event : WebhookEventAsyncType -> list Webhook.
Variable db_fails : stmt -> bool.

Abbreviation World := (world Manager Webhook).
Abbreviation Run := (M World).

Lemma bind_run {A B} (m : Run A) (f : A -> Run B) (w : World) :
  (m ≫= f) w =
  match m w with
  | Done a w' => f a w'
  | Failed e w' => Failed e w'
  end.
Proof. reflexivity. Qed.

Lemma execute_read {A} s (read : Database -> A) (w : World) :
  execute db_fails s read id w =
  if db_fails s then Failed (DatabaseError s) w else Done (read (database w)) w.
Proof. unfold execute. destruct w, (db_fails s); reflexivity. Qed.

Lemma collect_run category (w : World) :
  collect_categories_tree_products db_fails category w =
  if db_fails (SelectDescendants (category_pk category))
  then Failed (DatabaseError (SelectDescendants (category_pk category))) w
  else Done (tree_query (database w) category) w.
Proof.
  unfold collect_categories_tree_products. rewrite bind_run, execute_read.
  destruct (db_fails _); reflexivity.
Qed.

(** The collecting loop reads only: it ends with the folded query in the
    world it started in, or raises at a statement the database refuses. *)
Lemma collect_loop_outcome (fetched : list Category) acc (w : World) :
  for_fold fetched acc
    (λ products category,
       collected ← collect_categories_tree_products db_fails category;
       mret (qs_or products collected)) w =
  Done (fold_left
          (λ products category,
             qs_or products (tree_query (database w) category)) fetched acc) w
  ∨ ∃ s, db_fails s = true ∧
         for_fold fetched acc
           (λ products category,
              collected ← collect_categories_tree_products db_fails category;
              mret (qs_or products collected)) w =
         Failed (DatabaseError s) w.
Proof.
  revert acc. induction fetched as [|c cs IH]; intros acc; cbn [for_fold fold_left].
  - now left.
  - rewrite !bind_run, collect_run.
    destruct (db_fails (SelectDescendants (category_pk c))) eqn:Hc.
    + right. eauto.
    + apply IH.
Qed.

Lemma emit_loop_run {A} (xs : list A) (f : A -> event Manager Webhook)
    (w : World) :
  for_each xs (λ x, call_event (f x)) w =
  Done tt (mkWorld (database w) (trace w ++ (Emitted <$> (f <$> xs)))).
Proof.
  revert w. induction xs as [|x xs IH]; intros w; cbn [for_each fmap list_fmap].
  - rewrite app_nil_r. now destruct w.
  - rewrite bind_run. unfold call_event at 1, record at 1. rewrite IH.
    cbn [database trace]. now rewrite <- app_assoc.
Qed.

(** A run of the body of [delete_categories] ends normally in one world
    only, or raises at a statement the database refuses. *)
Lemma delete_categories_body_outcome categories_ids manager (w : World) :
  let db0 := database w in
  let categories := CategoryPkIn categories_ids in
  let fetched := run_categories db0 categories in
  let products := forest_query db0 fetched in
  let listing := ListingProductIn products in
  let db1 := update_unpublished db0 listing in
  let db2 := delete_rows db1 categories in
  match
    delete_categories_body get_webhooks_for_event db_fails categories_ids
      manager w
  with
  | Done _ w' =>
      w' =
      mkWorld db2
        (trace w ++
         [Unpublished (listing_pk <$> run_listings db0 listing);
          CategoriesDeleted (doomed db1 categories)] ++
         (Emitted <$>
            ((λ c, category_deleted manager c
                     (get_webhooks_for_event CATEGORY_DELETED)) <$> fetched) ++
            ((λ p, product_updated manager p
                     (get_webhooks_for_event PRODUCT_UPDATED)) <$>
               run_products db1 products) ++
            [mark_active_catalogue_promotion_rules_as_dirty
               (list_to_set (channel_id <$> run_listings db2 listing))]))
  | Failed e _ => ∃ s, e = DatabaseError s ∧ db_fails s = true
  end.
Proof.
  intros db0 categories fetched products listing db1 db2.
  unfold delete_categories_body. cbv zeta.
  run_bind; rewrite execute_read.
  destruct (db_fails SelectCategories) eqn:H1; cbv beta iota; [eauto|].
  run_bind.
  destruct (collect_loop_outcome (run_categories (database w) categories)
              ProductNone w) as [Hloop|(s & Hs & Hloop)];
    fold categories; rewrite Hloop; cbv beta iota; [|eauto].
  fold db0 fetched. change (fold_left _ fetched ProductNone) with products.
  fold listing.
  run_bind. unfold execute at 1.
  destruct (db_fails UpdateChannelListings) eqn:H2; cbv beta iota; [eauto|].
  run_bind. unfold record at 1. cbv beta iota. cbn [database trace].
  run_bind. unfold execute at 1. cbn [database trace].
  destruct (db_fails SelectProducts) eqn:H3; cbv beta iota; [eauto|].
  run_bind. unfold execute at 1. cbn [database trace].
  destruct (db_fails DeleteCategories) eqn:H4; cbv beta iota; [eauto|].
  run_bind. unfold record at 1. cbv beta iota. cbn [database trace].
  run_bind; rewrite emit_loop_run. cbv beta iota. cbn [database trace].
  run_bind; rewrite emit_loop_run. cbv beta iota. cbn [database trace].
  run_bind. unfold execute at 1. cbn [database trace].
  destruct (db_fails SelectChannelIds) eqn:H5; cbv beta iota; [eauto|].
  unfold call_event, record. cbn [database trace].
  fold db0 db1. unfold id. fold db2.
  f_equal. rewrite !fmap_app, <- !app_assoc. reflexivity.
Qed.

Lemma delete_categories_done categories_ids manager (w w' : World) u :
  delete_categories get_webhooks_for_event db_fails categories_ids manager w =
  Done u w' ->
  delete_categories_body get_webhooks_for_event db_fails categories_ids manager w =
  Done u w'.
Proof.
  unfold delete_categories, traced_atomic_transaction.
  destruct (delete_categories_body _ _ _ _ w); [auto | discriminate].
Qed.


(** C5: after a run that ends normally, every listing of a product of one of
    the given categories, or of a descendant of one, is unpublished with no
    publication date, and no row of the given categories is left. *)
Theorem delete_categories_unpublishes_and_deletes categories_ids manager
    (w w' : World) u :
  delete_categories get_webhooks_for_event db_fails categories_ids manager w =
  Done u w' ->
  (∀ c p l,
     c ∈ categories (database w) -> category_pk c ∈ categories_ids ->
     p ∈ products (database w) ->
     (product_category_id p = Some (category_pk c) ∨
      ∃ d, d ∈ get_descendants (database w) c ∧
           product_category_id p = Some (category_pk d)) ->
     l ∈ channel_listings (database w') ->
     listing_product_id l = product_id p ->
     is_published l = false ∧ published_at l = None) ∧
  (∀ c, c ∈ categories (database w') -> category_pk c ∉ categories_ids).
Proof.
  intros Hdone. apply delete_categories_done in Hdone.
  pose proof (delete_categories_body_outcome categories_ids manager w) as Hrun.
  cbv zeta in Hrun. rewrite Hdone in Hrun. subst w'. cbn [database]. split.
  - intros c p l Hc Hids Hp Hsub Hl Hid.
    eapply delete_keeps_unpublished; [|exact Hl|exact Hid].
    apply elem_of_run_products. split; [|assumption].
    apply product_matches_forest. exists c. split; [|exact Hsub].
    now apply elem_of_run_categories.
  - intros c. apply delete_removes_selected.
Qed.

(** The promotion-rules-dirty event of a run that ends normally names no
    channel: its listings are selected again after the delete, when no
    product is in a deleted category any more. *)
Lemma delete_categories_dirty_channels categories_ids manager (w w' : World) u :
  delete_categories get_webhooks_for_event db_fails categories_ids manager w =
  Done u w' ->
  last (trace w') =
  Some (Emitted (mark_active_catalogue_promotion_rules_as_dirty ∅)).
Proof.
  intros Hdone. apply delete_categories_done in Hdone.
  pose proof (delete_categories_body_outcome categories_ids manager w) as Hrun.
  cbv zeta in Hrun. rewrite Hdone in Hrun. subst w'. cbn [trace].
  rewrite run_listings_after_delete.
  rewrite !app_assoc, fmap_app, !app_assoc. cbn [fmap list_fmap].
  now rewrite last_snoc.
Qed.

(** C7: a run in which a step raises leaves the world it started in: no
    listing stays unpublished, no category stays deleted, nothing is
    emitted; the exception is that of the statement the database refused. *)
Theorem delete_categories_rolls_back categories_ids manager (w w' : World) e :
  delete_categories get_webhooks_for_event db_fails categories_ids manager w =
  Failed e w' ->
  w' = w ∧ database w' = database w ∧
  ∃ s, e = DatabaseError s ∧ db_fails s = true.
Proof.
  unfold delete_categories, traced_atomic_transaction. intros Hfail.
  pose proof (delete_categories_body_outcome categories_ids manager w) as Hrun.
  cbv zeta in Hrun.
  destruct (delete_categories_body _ _ _ _ w) as [a w1|e1 w1]; [discriminate|].
  injection Hfail as -> ->. auto.
Qed.

(** C3: the queryset [collect_categories_tree_products] returns selects,
    whenever it is run, exactly the products of the category itself and of
    its descendants: the rows of the category table from which the parent
    references lead up to the category, at any level (as the table was when
    the products were collected). *)
Theorem collect_categories_tree_products_union category (w : World) :
  db_fails (SelectDescendants (category_pk category)) = false ->
  ∃ q,
    collect_categories_tree_products db_fails category w = Done q w ∧
    ∀ db p,
      p ∈ run_products db q ↔
      p ∈ products db ∧
      (product_category_id p = Some (category_pk category) ∨
       ∃ d, d ∈ categories (database w) ∧
            reaches (categories (database w)) (category_pk category)
              (category_parent d) ∧
            product_category_id p = Some (category_pk d)).
Proof.
  intros Hok. exists (tree_query (database w) category). split.
  - rewrite collect_run, Hok. reflexivity.
  - intros db p. rewrite elem_of_run_products, product_matches_tree.
    unfold in_subtree. split.
    + intros [[Hc|(d & Hd & Hp)] Hin]; (split; [assumption|]); [now left|].
      right. apply elem_of_get_descendants in Hd as [Hd Hup]. eauto.
    + intros [Hin [Hc|(d & Hd & Hup & Hp)]]; (split; [|assumption]);
        [now left|].
      right. exists d. split; [|assumption].
      apply elem_of_get_descendants. auto.
Qed.

(** C4, as the code has it: the ids returned are those of the input
    products that are rows of the product table and to which no variant
    refers. *)
Theorem get_products_ids_without_variants_stored products_list (w : World) :
  db_fails SelectProductsWithoutVariants = false ->
  ∃ ids,
    get_products_ids_without_variants db_fails products_list w = Done ids w ∧
    ∀ i,
      i ∈ ids ↔
      (∃ p, p ∈ products_list ∧ product_id p = i) ∧
      (∃ row, row ∈ products (database w) ∧ product_id row = i) ∧
      (∀ v, v ∈ variants (database w) -> variant_product_id v ≠ i).
Proof.
  intros Hok. unfold get_products_ids_without_variants.
  rewrite execute_read, Hok. eexists. split; [reflexivity|].
  intros i. rewrite list_elem_of_fmap. split.
  - intros (row & -> & Hrow).
    apply list_elem_of_filter in Hrow as [[Hin Hnone] Hrow].
    apply list_elem_of_fmap in Hin as (p & Hid & Hp).
    repeat split; eauto.
    intros v Hv Heq. apply Hnone. apply list_elem_of_fmap. eauto.
  - intros ((p & Hp & Hid) & (row & Hrow & Hrid) & Hnone).
    exists row. split; [auto|]. apply list_elem_of_filter.
    repeat split; [| |assumption].
    + rewrite Hrid, <- Hid. now apply list_elem_of_fmap_2.
    + intros (v & Hv & Hin)%list_elem_of_fmap. eapply Hnone; eauto.
      congruence.
Qed.

End UtilitiesFacts.

(** ** Termination *)

(** C8: each of the four functions ends on every input: the revenue with a
    value, with the [KeyError] of a missing order or with the [TypeError] of
    a comparison; the three that query the database with a value, or with the
    error of a statement the database refused, so that they return whenever
    the database answers. *)
Theorem utilities_terminate :
  (∀ T (ops : TaxedMoneyOps T) variant start_date
     (order_lines : list (OrderLine T)) (orders_dict : gmap UUID Order)
     currency_code,
     (∃ revenue,
        calculate_revenue_for_variant variant start_date order_lines
          orders_dict currency_code = Return revenue) ∨
     (∃ key,
        calculate_revenue_for_variant variant start_date order_lines
          orders_dict currency_code = Raise (KeyError key)) ∨
     calculate_revenue_for_variant variant start_date order_lines
       orders_dict currency_code = Raise TypeError) ∧
  (∀ Manager Webhook db_fails category (w : world Manager Webhook),
     (∃ q, collect_categories_tree_products db_fails category w = Done q w) ∨
     (∃ s, db_fails s = true ∧
           collect_categories_tree_products db_fails category w =
           Failed (DatabaseError s) w)) ∧
  (∀ Manager Webhook get_webhooks_for_event db_fails categories_ids
     (manager : Manager) (w : world Manager Webhook),
     (∃ w', delete_categories get_webhooks_for_event db_fails categories_ids
              manager w = Done tt w') ∨
     (∃ s, db_fails s = true ∧
           delete_categories get_webhooks_for_event db_fails categories_ids
             manager w = Failed (DatabaseError s) w)) ∧
  (∀ Manager Webhook db_fails products_list (w : world Manager Webhook),
     (∃ ids, get_products_ids_without_variants db_fails products_list w =
             Done ids w) ∨
     (∃ s, db_fails s = true ∧
           get_products_ids_without_variants db_fails products_list w =
           Failed (DatabaseError s) w)).
Proof.
  repeat split.
  - intros T ops variant start_date order_lines orders_dict currency_code.
    unfold calculate_revenue_for_variant. apply revenue_loop_outcome.
  - intros Manager Webhook db_fails category w. rewrite collect_run.
    destruct (db_fails _) eqn:Hs; eauto.
  - intros Manager Webhook hooks db_fails categories_ids manager w.
    unfold delete_categories, traced_atomic_transaction.
    pose proof (delete_categories_body_outcome hooks db_fails categories_ids
                  manager w) as Hrun.
    cbv zeta in Hrun.
    destruct (delete_categories_body _ _ _ _ w) as [[] w1|e w1].
    + eauto.
    + destruct Hrun as (s & -> & Hs). eauto.
  - intros Manager Webhook db_fails products_list w.
    unfold get_products_ids_without_variants. rewrite execute_read.
    destruct (db_fails _) eqn:Hs; eauto.
Qed.

(** ** The properties at work *)

Lemma calculate_revenue_sums_window_witness :
  calculate_revenue_for_variant sample_variant sample_start sample_lines
    sample_orders "USD" = Return (mkMinorUnits 5 6 "USD").
Proof.
  assert (Hall : ∀ l, In l sample_lines ->
                      ∃ order, sample_orders !! order_id l = Some order ∧
                               is_Some (temporal_ge (created_at order)
                                          sample_start)).
  { intros l [<-|[<-|[]]]; eexists; split; vm_compute; eauto. }
  destruct (calculate_revenue_sums_window sample_variant sample_start
              sample_lines sample_orders "USD" Hall) as [-> _].
  vm_compute. reflexivity.
Defined.

(** C1 as it is stated fails for a start date that is a [datetime.date]
    while the orders were created at a datetime: every line has its order,
    and the comparison raises instead of returning the sum. *)
Lemma calculate_revenue_date_against_datetime :
  calculate_revenue_for_variant sample_variant (date 10) sample_lines
    sample_orders "USD" = Raise TypeError ∧
  ¬ ((∀ l, In l sample_lines -> is_Some (sample_orders !! order_id l)) ->
     calculate_revenue_for_variant sample_variant (date 10) sample_lines
       sample_orders "USD" =
     Return (sum_from (zero_taxed_money "USD")
               (map total_price
                  (List.filter
                     (λ l, match sample_orders !! order_id l with
                           | Some order =>
                               bool_decide (temporal_ge (created_at order)
                                              (date 10) = Some true)
                           | None => false
                           end)
                     sample_lines)))).
Proof.
  split; [vm_compute; reflexivity|]. intros Hclaim.
  assert (Hall : ∀ l, In l sample_lines ->
                      is_Some (sample_orders !! order_id l))
    by (intros l [<-|[<-|[]]]; vm_compute; eauto).
  specialize (Hclaim Hall). vm_compute in Hclaim. discriminate.
Qed.

Lemma calculate_revenue_key_error_witness :
  calculate_revenue_for_variant sample_variant sample_start
    (sample_lines ++ [mkOrderLine 3%N (mkMinorUnits 1 1 "USD")])
    sample_orders "USD" = Raise (KeyError 3%N) ∧
  ∃ l, In l (sample_lines ++ [mkOrderLine 3%N (mkMinorUnits 1 1 "USD")]) ∧
       sample_orders !! order_id l = None.
Proof.
  split; [vm_compute; reflexivity|].
  apply (calculate_revenue_key_error sample_variant sample_start
           (sample_lines ++ [mkOrderLine 3%N (mkMinorUnits 1 1 "USD")])
           sample_orders "USD").
  - intros l order [<-|[<-|[<-|[]]]]; vm_compute; intros [= <-]; eauto.
  - exists 3%N. vm_compute. reflexivity.
Defined.

(** C10 as it is stated fails for the same start date: every [order_id] is
    a key of the dictionary, and the call does not return: it raises
    [TypeError]. *)
Lemma calculate_revenue_type_error_with_all_keys :
  calculate_revenue_for_variant sample_variant (date 10) sample_lines
    sample_orders "USD" = Raise TypeError ∧
  ¬ (((∃ key, calculate_revenue_for_variant sample_variant (date 10)
                sample_lines sample_orders "USD" = Raise (KeyError key)) ↔
      (∃ l, In l sample_lines ∧ sample_orders !! order_id l = None)) ∧
     ((∀ l, In l sample_lines -> is_Some (sample_orders !! order_id l)) ->
      ∃ revenue, calculate_revenue_for_variant sample_variant (date 10)
                   sample_lines sample_orders "USD" = Return revenue)).
Proof.
  split; [vm_compute; reflexivity|]. intros [_ Hreturns].
  assert (Hall : ∀ l, In l sample_lines ->
                      is_Some (sample_orders !! order_id l))
    by (intros l [<-|[<-|[]]]; vm_compute; eauto).
  destruct (Hreturns Hall) as [revenue Hrevenue].
  vm_compute in Hrevenue. discriminate.
Qed.


Lemma delete_categories_unpublishes_and_deletes_witness :
  ∃ w',
    delete_categories sample_webhooks no_faults [1] tt sample_world =
    Done tt w' ∧
    (∀ l, l ∈ channel_listings (database w') -> listing_product_id l = 11 ->
          is_published l = false ∧ published_at l = None) ∧
    (∀ c, c ∈ categories (database w') -> category_pk c ∉ [1]).
Proof.
  destruct (delete_categories sample_webhooks no_faults [1] tt sample_world)
    as [[] w'|e w'] eqn:Hrun; [|vm_compute in Hrun; discriminate].
  destruct (delete_categories_unpublishes_and_deletes sample_webhooks no_faults
              [1] tt sample_world w' tt Hrun) as [Hlistings Hrows].
  exists w'. split; [reflexivity|]. split; [|exact Hrows].
  intros l Hl Hid.
  apply (Hlistings (mkCategory 1 None) (mkProduct 11 (Some 3)) l);
    [in_list|in_list|in_list| |exact Hl|exact Hid].
  right. exists (mkCategory 3 (Some 2)). split; [in_list|reflexivity].
Defined.

(** When the delete is refused the body has already unpublished listing 100;
    the transaction takes that back. *)
Lemma delete_categories_rolls_back_witness :
  (∃ w1,
     delete_categories_body sample_webhooks delete_fails [1] tt sample_world =
     Failed (DatabaseError DeleteCategories) w1 ∧
     mkProductChannelListing 100 10 5 false None ∈
       channel_listings (database w1)) ∧
  ∃ w',
    delete_categories sample_webhooks delete_fails [1] tt sample_world =
    Failed (DatabaseError DeleteCategories) w' ∧
    database w' = sample_db ∧
    mkProductChannelListing 100 10 5 true (Some 77) ∈
      channel_listings (database w').
Proof.
  split.
  - eexists. split; [vm_compute; reflexivity|in_list].
  - destruct (delete_categories sample_webhooks delete_fails [1] tt
                sample_world) as [u w'|e w'] eqn:Hrun;
      [vm_compute in Hrun; discriminate|].
    destruct (delete_categories_rolls_back sample_webhooks delete_fails [1] tt
                sample_world w' e Hrun) as (-> & _ & _).
    exists sample_world. split; [|split; [reflexivity|in_list]].
    vm_compute in Hrun. injection Hrun as ->. reflexivity.
Defined.

Lemma collect_categories_tree_products_union_witness :
  ∃ q,
    collect_categories_tree_products no_faults (mkCategory 1 None)
      sample_world = Done q sample_world ∧
    run_products sample_db q = [mkProduct 10 (Some 1); mkProduct 11 (Some 3)] ∧
    (mkProduct 11 (Some 3) ∈ run_products sample_db q ↔
     mkProduct 11 (Some 3) ∈ products sample_db ∧
     (Some 3 = Some 1 ∨
      ∃ d, d ∈ categories sample_db ∧
           reaches (categories sample_db) 1 (category_parent d) ∧
           Some 3 = Some (category_pk d))).
Proof.
  destruct (collect_categories_tree_products_union no_faults (mkCategory 1 None)
              sample_world eq_refl) as (q & Hrun & Hq).
  exists q. split; [exact Hrun|]. split.
  - vm_compute in Hrun. injection Hrun as <-. vm_compute. reflexivity.
  - apply (Hq sample_db (mkProduct 11 (Some 3))).
Defined.

Lemma get_products_ids_without_variants_stored_witness :
  ∃ ids,
    get_products_ids_without_variants no_faults
      [mkProduct 10 None; mkProduct 12 None; mkProduct 55 None] sample_world =
    Done ids sample_world ∧
    ids = [12] ∧
    (12 ∈ ids ↔
     (∃ p, p ∈ [mkProduct 10 None; mkProduct 12 None; mkProduct 55 None] ∧
           product_id p = 12) ∧
     (∃ row, row ∈ products sample_db ∧ product_id row = 12) ∧
     (∀ v, v ∈ variants sample_db -> variant_product_id v ≠ 12)).
Proof.
  destruct (get_products_ids_without_variants_stored no_faults
              [mkProduct 10 None; mkProduct 12 None; mkProduct 55 None]
              sample_world eq_refl) as (ids & Hrun & Hids).
  exists ids. split; [exact Hrun|]. split.
  - vm_compute in Hrun. now injection Hrun as <-.
  - apply (Hids 12).
Defined.

(** C4 as it is stated fails for a product that is no row of the table:
    product 55 is in the input and no variant refers to it, and its id is
    not returned. *)
Lemma get_products_ids_without_variants_not_stored :
  ¬ (∀ ids w',
       get_products_ids_without_variants no_faults [mkProduct 55 None]
         sample_world = Done ids w' ->
       ∀ i, i ∈ ids ↔
            ∃ p, p ∈ [mkProduct 55 None] ∧ product_id p = i ∧
                 ∀ v, v ∈ variants (database sample_world) ->
                      variant_product_id v ≠ product_id p).
Proof.
  intros Hclaim.
  specialize (Hclaim [] sample_world eq_refl 55) as [_ Hback].
  assert (Hin : 55 ∈ @nil Z); [|inversion Hin].
  apply Hback. exists (mkProduct 55 None). split; [in_list|]. split; [reflexivity|].
  intros v Hv. apply list_elem_of_singleton in Hv as ->. discriminate.
Qed.

(** C6 at work: deleting category 1 of [single_db] unpublishes listing 100,
    which is on channel 5, and the promotion-rules-dirty event that follows
    has no channel at all. *)
Theorem delete_categories_dirty_event_misses_channel :
  ∃ w',
    delete_categories sample_webhooks no_faults [1] tt single_world =
    Done tt w' ∧
    channel_listings (database w') =
    [mkProductChannelListing 100 10 5 false None] ∧
    trace w' =
    [Unpublished [100]; CategoriesDeleted [1];
     Emitted (category_deleted tt (mkCategory 1 None) [1]);
     Emitted (product_updated tt (mkProduct 10 (Some 1)) [2]);
     Emitted (mark_active_catalogue_promotion_rules_as_dirty ∅)].
Proof. eexists. repeat split. Qed.

(** * Further properties *)

(** ** Revenue *)

Section MoreRevenueFacts.
Context {T : Type} `{TaxedMoneyOps T}.

(** The loop over [l1 ++ l2] is the loop over [l2] continued from where the
    loop over [l1] ends. *)
Lemma revenue_loop_app start_date (orders_dict : gmap UUID Order)
    (l1 l2 : list (OrderLine T)) revenue :
  revenue_loop start_date orders_dict revenue (l1 ++ l2) =
  match revenue_loop start_date orders_dict revenue l1 with
  | Return revenue' => revenue_loop start_date orders_dict revenue' l2
  | Raise e => Raise e
  end.
Proof.
  revert revenue. induction l1 as [|l l1 IH]; intros revenue; [reflexivity|].
  cbn [app revenue_loop].
  destruct (orders_dict !! order_id l) as [o|]; [|reflexivity].
  destruct (temporal_ge (created_at o) start_date) as [[]|];
    [apply IH|apply IH|reflexivity].
Qed.

Lemma revenue_loop_same_orders start_date (d1 d2 : gmap UUID Order)
    (order_lines : list (OrderLine T)) revenue :
  (∀ l, In l order_lines -> d1 !! order_id l = d2 !! order_id l) ->
  revenue_loop start_date d1 revenue order_lines =
  revenue_loop start_date d2 revenue order_lines.
Proof.
  revert revenue. induction order_lines as [|l rest IH]; intros revenue Hsame;
    [reflexivity|].
  cbn [revenue_loop]. rewrite <- (Hsame l (or_introl eq_refl)).
  assert (Hrest : ∀ l', In l' rest -> d1 !! order_id l' = d2 !! order_id l')
    by (intros l' Hl'; apply Hsame; now right).
  destruct (d1 !! order_id l) as [o|]; [|reflexivity].
  destruct (temporal_ge (created_at o) start_date) as [[]|];
    [now apply IH|now apply IH|reflexivity].
Qed.

(** X1: the [KeyError] is that of the first line, in the order of the
    iterable, whose order is missing: with the orders of all lines before it
    present and of a kind that can be compared with [start_date], its
    [order_id] is the key of the error, whatever comes after it. *)
Theorem calculate_revenue_first_missing_key variant start_date
    (before after : list (OrderLine T)) line
    (orders_dict : gmap UUID Order) currency_code :
  (∀ l, In l before ->
        ∃ order, orders_dict !! order_id l = Some order ∧
                 is_Some (temporal_ge (created_at order) start_date)) ->
  orders_dict !! order_id line = None ->
  calculate_revenue_for_variant variant start_date (before ++ line :: after)
    orders_dict currency_code = Raise (KeyError (order_id line)).
Proof.
  intros Hbefore Hline. unfold calculate_revenue_for_variant.
  rewrite revenue_loop_app, (revenue_loop_present start_date _ _ Hbefore).
  cbn [revenue_loop]. now rewrite Hline.
Qed.

(** X2: only the orders the lines refer to are read: two dictionaries that
    agree on the [order_id] of every line give the same result, value or
    error. *)
Theorem calculate_revenue_reads_referenced_orders variant start_date
    (order_lines : list (OrderLine T)) (d1 d2 : gmap UUID Order)
    currency_code :
  (∀ l, In l order_lines -> d1 !! order_id l = d2 !! order_id l) ->
  calculate_revenue_for_variant variant start_date order_lines d1
    currency_code =
  calculate_revenue_for_variant variant start_date order_lines d2
    currency_code.
Proof.
  intros Hsame. unfold calculate_revenue_for_variant.
  now apply revenue_loop_same_orders.
Qed.

(** X3: lines are accounted for one after the other: the revenue over
    [l1 ++ l2] is the loop over [l2] started from the revenue over [l1], and
    an error in [l1] is the error of the whole, so that nothing of [l2] is
    looked at then. *)
Theorem calculate_revenue_app variant start_date
    (l1 l2 : list (OrderLine T)) (orders_dict : gmap UUID Order)
    currency_code :
  calculate_revenue_for_variant variant start_date (l1 ++ l2) orders_dict
    currency_code =
  match
    calculate_revenue_for_variant variant start_date l1 orders_dict
      currency_code
  with
  | Return revenue => revenue_loop start_date orders_dict revenue l2
  | Raise e => Raise e
  end.
Proof. unfold calculate_revenue_for_variant. apply revenue_loop_app. Qed.

End MoreRevenueFacts.

(** ** Deleting categories *)

Lemma find_app {A} (f : A -> bool) (l1 l2 : list A) :
  find f (l1 ++ l2) =
  match find f l1 with
  | Some x => Some x
  | None => find f l2
  end.
Proof.
  induction l1 as [|x l1 IH]; [reflexivity|]. cbn [app find].
  destruct (f x); [reflexivity|exact IH].
Qed.

Lemma run_categories_same_ids db (ids ids' : list Z) :
  (∀ x, x ∈ ids ↔ x ∈ ids') ->
  run_categories db (CategoryPkIn ids) = run_categories db (CategoryPkIn ids').
Proof. intros Hsame. apply list_filter_iff. intros c. apply Hsame. Qed.

Lemma run_categories_none db (ids : list Z) :
  (∀ c, c ∈ categories db -> category_pk c ∉ ids) ->
  run_categories db (CategoryPkIn ids) = [].
Proof.
  intros Hnone. apply elem_of_nil_inv. intros c Hc.
  apply elem_of_run_categories in Hc as [Hids Hc]. exact (Hnone c Hc Hids).
Qed.

Lemma run_products_none db : run_products db ProductNone = [].
Proof.
  apply elem_of_nil_inv. intros p Hp.
  apply elem_of_run_products in Hp as [Hmatch _]. exact Hmatch.
Qed.

Lemma run_listings_none db : run_listings db (ListingProductIn ProductNone) = [].
Proof.
  apply elem_of_nil_inv. intros l Hl.
  apply elem_of_run_listings in Hl as [(p & Hp & _) _].
  rewrite run_products_none in Hp. inversion Hp.
Qed.

(** An update through a query that selects nothing changes nothing. *)
Lemma update_unpublished_none db :
  update_unpublished db (ListingProductIn ProductNone) = db.
Proof.
  unfold update_unpublished. rewrite run_listings_none.
  destruct db as [cs ps vs ls]. cbn [categories products variants channel_listings].
  f_equal. induction ls as [|l ls IH]; [reflexivity|].
  cbn [fmap list_fmap]. f_equal. exact IH.
Qed.

(** A delete through a query that selects nothing changes nothing. *)
Lemma delete_rows_none db q :
  run_categories db q = [] -> doomed db q = [] ∧ delete_rows db q = db.
Proof.
  intros Hnone. assert (Hdoomed : doomed db q = []).
  { unfold doomed. rewrite Hnone. reflexivity. }
  split; [assumption|]. unfold delete_rows. rewrite Hdoomed.
  clear Hnone Hdoomed. destruct db as [cs ps vs ls].
  cbn [categories products variants channel_listings]. f_equal.
  - induction cs as [|c cs IH]; [reflexivity|].
    rewrite filter_cons_True by (intros Hin; inversion Hin). now f_equal.
  - induction ps as [|p ps IH]; [reflexivity|].
    cbn [fmap list_fmap]. f_equal; [|exact IH].
    unfold clear_category. destruct (product_category_id p); reflexivity.
Qed.

Lemma emitted_in_run {Manager Webhook} (e : event Manager Webhook) hit gone es :
  Emitted e ∈ [Unpublished hit; CategoriesDeleted gone] ++ (Emitted <$> es)
  ↔ e ∈ es.
Proof.
  cbn [app]. rewrite !elem_of_cons, list_elem_of_fmap. split.
  - intros [?|[?|(e' & [= ->] & He')]]; [discriminate|discriminate|assumption].
  - intros He. right. right. eauto.
Qed.

(** With one row per key, the row found for the key of a row is that row. *)
Lemma list_find_row (table : list Category) d :
  NoDup (category_pk <$> table) -> d ∈ table ->
  ∃ i, list_find (λ c, category_pk c = category_pk d) table = Some (i, d).
Proof.
  intros Hkeys Hd.
  destruct (list_find_elem_of (λ c, category_pk c = category_pk d) table d Hd
              eq_refl) as [[i r] Hfind].
  exists i. rewrite Hfind. do 2 f_equal.
  apply list_find_Some in Hfind as (Hi & Hpk & _).
  apply list_elem_of_lookup in Hd as [j Hj].
  assert (Hij : i = j).
  { apply (NoDup_lookup (category_pk <$> table) i j (category_pk d) Hkeys).
    - now rewrite list_lookup_fmap, Hi, <- Hpk.
    - now rewrite list_lookup_fmap, Hj. }
  subst j. congruence.
Qed.

(** Above a row that is above: what reaches a row reaches what the row
    reaches. *)
Lemma reaches_trans table a d i p :
  list_find (λ c, category_pk c = category_pk d) table = Some (i, d) ->
  reaches table a (category_parent d) ->
  reaches table (category_pk d) p ->
  reaches table a p.
Proof.
  intros Hfind Hup. induction 1 as [|k j row Hrow _ IH].
  - econstructor; eauto.
  - econstructor; eauto.
Qed.

Section MoreUtilitiesFacts.
Context {Manager Webhook : Type}.
Variable get_webhooks_for_event : WebhookEventAsyncType -> list Webhook.
Variable db_fails : stmt -> bool.

Lemma execute_run {A} s (read : Database -> A) write
    (w : world Manager Webhook) :
  execute db_fails s read write w =
  if db_fails s then Failed (DatabaseError s) w
  else Done (read (database w)) (mkWorld (write (database w)) (trace w)).
Proof. reflexivity. Qed.

Lemma record_run (e : effect Manager Webhook) (w : world Manager Webhook) :
  record e w = Done tt (mkWorld (database w) (trace w ++ [e])).
Proof. reflexivity. Qed.

(** The collecting loop stops at the first descendants query the database
    refuses. *)
Lemma collect_loop_find (fetched : list Category) acc
    (w : world Manager Webhook) :
  for_fold fetched acc
    (λ products category,
       collected ← collect_categories_tree_products db_fails category;
       mret (qs_or products collected)) w =
  match
    find db_fails ((λ c, SelectDescendants (category_pk c)) <$> fetched)
  with
  | Some s => Failed (DatabaseError s) w
  | None =>
      Done (fold_left
              (λ products category,
                 qs_or products (tree_query (database w) category))
              fetched acc) w
  end.
Proof.
  revert acc. induction fetched as [|c cs IH]; intros acc;
    cbn [for_fold fold_left fmap list_fmap find]; [reflexivity|].
  rewrite !bind_run, collect_run.
  destruct (db_fails (SelectDescendants (category_pk c))); [reflexivity|].
  apply IH.
Qed.

Lemma delete_categories_body_find categories_ids manager
    (w : world Manager Webhook) :
  match find db_fails (issued_statements (database w) categories_ids) with
  | Some s =>
      ∃ w1, delete_categories_body get_webhooks_for_event db_fails
              categories_ids manager w = Failed (DatabaseError s) w1
  | None =>
      ∃ w', delete_categories_body get_webhooks_for_event db_fails
              categories_ids manager w = Done tt w'
  end.
Proof.
  unfold issued_statements, delete_categories_body. cbv zeta.
  cbn [app find]. run_bind. rewrite execute_read.
  destruct (db_fails SelectCategories); cbv beta iota; [eexists; reflexivity|].
  rewrite find_app. run_bind. rewrite collect_loop_find.
  destruct (find db_fails _) as [s|]; cbv beta iota; [eexists; reflexivity|].
  cbn [find].
  run_bind. rewrite execute_run.
  destruct (db_fails UpdateChannelListings); cbv beta iota;
    [eexists; reflexivity|].
  run_bind. rewrite record_run. cbv beta iota.
  run_bind. rewrite execute_read.
  destruct (db_fails SelectProducts); cbv beta iota; [eexists; reflexivity|].
  run_bind. rewrite execute_run.
  destruct (db_fails DeleteCategories); cbv beta iota; [eexists; reflexivity|].
  run_bind. rewrite record_run. cbv beta iota.
  run_bind; rewrite emit_loop_run. cbv beta iota.
  run_bind; rewrite emit_loop_run. cbv beta iota.
  run_bind. rewrite execute_read.
  destruct (db_fails SelectChannelIds); cbv beta iota; [eexists; reflexivity|].
  unfold call_event. rewrite record_run. eexists; reflexivity.
Qed.

(** X4: [delete_categories] sends its statements in the order of
    [issued_statements]; it returns when the database answers them all, and
    otherwise raises the error of the first one refused and leaves the world
    as it was. *)
Theorem delete_categories_first_refused categories_ids manager
    (w : world Manager Webhook) :
  match find db_fails (issued_statements (database w) categories_ids) with
  | Some s =>
      delete_categories get_webhooks_for_event db_fails categories_ids
        manager w = Failed (DatabaseError s) w
  | None =>
      ∃ w', delete_categories get_webhooks_for_event db_fails categories_ids
              manager w = Done tt w'
  end.
Proof.
  pose proof (delete_categories_body_find categories_ids manager w) as Hrun.
  unfold delete_categories, traced_atomic_transaction.
  destruct (find db_fails _) as [s|]; destruct Hrun as [w1 ->]; eauto.
Qed.

(** X5: the given ids are a set: two id lists with the same elements, in
    whatever order and however often repeated, give the same run. *)
Theorem delete_categories_ids_as_set (ids ids' : list Z) manager
    (w : world Manager Webhook) :
  (∀ x, x ∈ ids ↔ x ∈ ids') ->
  delete_categories get_webhooks_for_event db_fails ids manager w =
  delete_categories get_webhooks_for_event db_fails ids' manager w.
Proof.
  intros Hsame.
  assert (Hcat : ∀ db, run_categories db (CategoryPkIn ids) =
                       run_categories db (CategoryPkIn ids'))
    by (intros db; now apply run_categories_same_ids).
  pose proof (delete_categories_body_find ids manager w) as Hfind.
  pose proof (delete_categories_body_find ids' manager w) as Hfind'.
  pose proof (delete_categories_body_outcome get_webhooks_for_event db_fails
                ids manager w) as Hrun.
  pose proof (delete_categories_body_outcome get_webhooks_for_event db_fails
                ids' manager w) as Hrun'.
  cbv zeta in Hrun, Hrun'.
  unfold issued_statements in Hfind, Hfind'. rewrite Hcat in Hfind.
  unfold delete_categories, traced_atomic_transaction.
  destruct (find db_fails _) as [s|].
  - destruct Hfind as [w1 ->], Hfind' as [w1' ->]. reflexivity.
  - destruct Hfind as [w1 Hw1], Hfind' as [w1' Hw1'].
    rewrite Hw1 in Hrun |- *. rewrite Hw1' in Hrun' |- *. subst w1 w1'.
    unfold delete_rows, doomed. rewrite !Hcat. reflexivity.
Qed.

(** X6: when no category row has one of the given ids (an empty id list, or
    ids of rows that are gone), a run that ends normally leaves every table
    as it was and emits the promotion-rules-dirty event only, over no
    channel. *)
Theorem delete_categories_no_match categories_ids manager
    (w w' : world Manager Webhook) u :
  (∀ c, c ∈ categories (database w) -> category_pk c ∉ categories_ids) ->
  delete_categories get_webhooks_for_event db_fails categories_ids manager w =
  Done u w' ->
  database w' = database w ∧
  trace w' =
  trace w ++
  [Unpublished []; CategoriesDeleted [];
   Emitted (mark_active_catalogue_promotion_rules_as_dirty ∅)].
Proof.
  intros Hnone Hdone. apply delete_categories_done in Hdone.
  pose proof (delete_categories_body_outcome get_webhooks_for_event db_fails
                categories_ids manager w) as Hrun.
  cbv zeta in Hrun. rewrite Hdone in Hrun. subst w'.
  rewrite (run_categories_none _ _ Hnone). cbn [forest_query fold_left].
  rewrite update_unpublished_none, run_listings_none, run_products_none.
  destruct (delete_rows_none (database w) (CategoryPkIn categories_ids)
              (run_categories_none _ _ Hnone)) as [-> ->].
  rewrite run_listings_none. cbn [database trace]. split; reflexivity.
Qed.

(** X7: a run that ends normally adds and removes no listing and moves none
    to another product or channel, and a listing of a product that is in none
    of the given categories and in none of their descendants is left exactly
    as it was, published or not. *)
Theorem delete_categories_listings_frame categories_ids manager
    (w w' : world Manager Webhook) u :
  delete_categories get_webhooks_for_event db_fails categories_ids manager w =
  Done u w' ->
  (λ l, (listing_pk l, listing_product_id l, channel_id l)) <$>
    channel_listings (database w') =
  (λ l, (listing_pk l, listing_product_id l, channel_id l)) <$>
    channel_listings (database w) ∧
  ∀ l,
    l ∈ channel_listings (database w) ->
    (∀ c p,
       c ∈ categories (database w) -> category_pk c ∈ categories_ids ->
       p ∈ products (database w) ->
       (product_category_id p = Some (category_pk c) ∨
        ∃ d, d ∈ get_descendants (database w) c ∧
             product_category_id p = Some (category_pk d)) ->
       listing_product_id l ≠ product_id p) ->
    l ∈ channel_listings (database w').
Proof.
  intros Hdone. apply delete_categories_done in Hdone.
  pose proof (delete_categories_body_outcome get_webhooks_for_event db_fails
                categories_ids manager w) as Hrun.
  cbv zeta in Hrun. rewrite Hdone in Hrun. subst w'.
  cbn [database delete_rows update_unpublished channel_listings]. split.
  - rewrite <- list_fmap_compose. apply list_fmap_ext. intros i l _.
    unfold compose. destruct (bool_decide _); reflexivity.
  - intros l Hl Hother. apply list_elem_of_fmap. exists l. split; [|assumption].
    rewrite bool_decide_eq_false_2; [reflexivity|]. intros Hhit.
    apply elem_of_run_listings in Hhit as [(p & Hp & Hid) _].
    apply elem_of_run_products in Hp as [Hmatch Hp].
    apply product_matches_forest in Hmatch as (c & Hc & Hsub).
    apply elem_of_run_categories in Hc as [Hids Hc].
    exact (Hother c p Hc Hids Hp Hsub Hid).
Qed.

(** X8: no event is emitted twice by a run that ends normally, when the
    category and product tables hold no row twice: not when an id is given
    twice, and not when a category is given together with one of its
    descendants, whose products are then reached from both. *)
Theorem delete_categories_no_event_twice categories_ids manager
    (w w' : world Manager Webhook) u :
  NoDup (categories (database w)) -> NoDup (products (database w)) ->
  delete_categories get_webhooks_for_event db_fails categories_ids manager w =
  Done u w' ->
  ∃ new, trace w' = trace w ++ new ∧ NoDup new.
Proof.
  intros Hcats Hprods Hdone. apply delete_categories_done in Hdone.
  pose proof (delete_categories_body_outcome get_webhooks_for_event db_fails
                categories_ids manager w) as Hrun.
  cbv zeta in Hrun. rewrite Hdone in Hrun. subst w'. cbn [trace].
  eexists. split; [reflexivity|].
  cbn [app]. repeat (apply NoDup_cons; split).
  - rewrite elem_of_cons, list_elem_of_fmap.
    intros [?|(e & ? & _)]; discriminate.
  - rewrite list_elem_of_fmap. intros (e & ? & _); discriminate.
  - apply NoDup_fmap_2_strong; [intros e1 e2 _ _ [= ->]; reflexivity|].
    apply NoDup_app. split; [|split].
    + apply NoDup_fmap_2_strong; [intros c1 c2 _ _ [= ->]; reflexivity|].
      now apply NoDup_filter.
    + intros e (c & -> & _)%list_elem_of_fmap.
      rewrite elem_of_app, list_elem_of_fmap, list_elem_of_singleton.
      intros [(p & ? & _)|?]; discriminate.
    + apply NoDup_app. split; [|split].
      * apply NoDup_fmap_2_strong; [intros p1 p2 _ _ [= ->]; reflexivity|].
        now apply NoDup_filter.
      * intros e (p & -> & _)%list_elem_of_fmap.
        rewrite list_elem_of_singleton. discriminate.
      * apply NoDup_singleton.
Qed.

(** X9: every [category_deleted] event of a run that ends normally is for a
    category row that had one of the given ids and is gone afterwards, and
    every [product_updated] event carries a product row as it was read before
    the delete: a row of the table at the start that still names its
    category, a category that is gone afterwards. *)
Theorem delete_categories_event_payloads categories_ids manager
    (w w' : world Manager Webhook) u :
  delete_categories get_webhooks_for_event db_fails categories_ids manager w =
  Done u w' ->
  ∃ new,
    trace w' = trace w ++ new ∧
    (∀ m c ws,
       Emitted (category_deleted m c ws) ∈ new ->
       m = manager ∧ ws = get_webhooks_for_event CATEGORY_DELETED ∧
       c ∈ categories (database w) ∧ category_pk c ∈ categories_ids ∧
       c ∉ categories (database w')) ∧
    (∀ m p ws,
       Emitted (product_updated m p ws) ∈ new ->
       m = manager ∧ ws = get_webhooks_for_event PRODUCT_UPDATED ∧
       p ∈ products (database w) ∧
       ∃ c, c ∈ categories (database w) ∧
            product_category_id p = Some (category_pk c) ∧
            c ∉ categories (database w')).
Proof.
  intros Hdone. apply delete_categories_done in Hdone.
  pose proof (delete_categories_body_outcome get_webhooks_for_event db_fails
                categories_ids manager w) as Hrun.
  cbv zeta in Hrun. rewrite Hdone in Hrun. subst w'. cbn [trace database].
  eexists. split; [reflexivity|].
  assert (Hgone : ∀ c, category_pk c ∈
                         doomed (database w) (CategoryPkIn categories_ids) ->
                       c ∉ categories
                             (delete_rows
                                (update_unpublished (database w)
                                   (ListingProductIn
                                      (forest_query (database w)
                                         (run_categories (database w)
                                            (CategoryPkIn categories_ids)))))
                                (CategoryPkIn categories_ids))).
  { intros c Hc Hin. cbn [delete_rows categories] in Hin.
    apply list_elem_of_filter in Hin as [Hkept _]. exact (Hkept Hc). }
  split.
  - intros m c ws Hin. apply emitted_in_run in Hin.
    apply elem_of_app in Hin as [Hin|Hin].
    + apply list_elem_of_fmap in Hin as (c' & [= -> -> ->] & Hc').
      pose proof Hc' as Hsel.
      apply elem_of_run_categories in Hc' as [Hids Hc'].
      repeat split; [assumption|assumption|]. apply Hgone. unfold doomed.
      apply list_elem_of_fmap. exists c'. split; [reflexivity|].
      apply elem_of_app. now left.
    + apply elem_of_app in Hin as [Hin|Hin].
      * apply list_elem_of_fmap in Hin as (p & ? & _). discriminate.
      * apply list_elem_of_singleton in Hin. discriminate.
  - intros m p ws Hin. apply emitted_in_run in Hin.
    apply elem_of_app in Hin as [Hin|Hin].
    + apply list_elem_of_fmap in Hin as (c & ? & _). discriminate.
    + apply elem_of_app in Hin as [Hin|Hin].
      * apply list_elem_of_fmap in Hin as (p' & [= -> -> ->] & Hp').
        apply elem_of_run_products in Hp' as [Hmatch Hp'].
        apply product_matches_forest in Hmatch as (c & Hc & Hsub).
        repeat split; [assumption|].
        destruct Hsub as [Hk|(d & Hd & Hk)].
        -- exists c. pose proof Hc as Hsel.
           apply elem_of_run_categories in Hc as [_ Hc].
           repeat split; [assumption|assumption|]. apply Hgone. unfold doomed.
           apply list_elem_of_fmap. exists c. split; [reflexivity|].
           apply elem_of_app. now left.
        -- exists d. pose proof Hd as Hrow.
           apply list_elem_of_filter in Hrow as [_ Hrow].
           repeat split; [assumption|assumption|]. apply Hgone. unfold doomed.
           apply list_elem_of_fmap. exists d. split; [reflexivity|].
           apply elem_of_app. right. apply list_elem_of_bind. eauto.
      * apply list_elem_of_singleton in Hin. discriminate.
Qed.

(** X10: the ids come back in the order of the product table, each row at
    most once: the result is a sublist of the ids of the table, so it has no
    id twice when the table has none, however often a product is in the input
    list. *)
Theorem get_products_ids_without_variants_in_table_order products_list
    (w w' : world Manager Webhook) ids :
  get_products_ids_without_variants db_fails products_list w = Done ids w' ->
  ids `sublist_of` (product_id <$> products (database w)) ∧
  (NoDup (product_id <$> products (database w)) -> NoDup ids).
Proof.
  unfold get_products_ids_without_variants. rewrite execute_read.
  destruct (db_fails _); [discriminate|]. intros [= <- <-].
  assert (Hsub : (product_id <$>
                    filter (λ p, product_id p ∈ product_id <$> products_list ∧
                                 product_id p ∉
                                   variant_product_id <$> variants (database w))
                      (products (database w)))
                 `sublist_of` (product_id <$> products (database w))).
  { apply fmap_sublist, sublist_filter. }
  split; [exact Hsub|]. intros Hnodup. eapply sublist_NoDup; eauto.
Qed.

(** X11: only the ids of the input products are read, as a set: two input
    lists with the same product ids, in whatever order and however often,
    give the same result, and an empty input list gives the empty list on
    every database. *)
Theorem get_products_ids_without_variants_input_as_set
    (l1 l2 : list Product) (w : world Manager Webhook) :
  ((∀ i, i ∈ product_id <$> l1 ↔ i ∈ product_id <$> l2) ->
   get_products_ids_without_variants db_fails l1 w =
   get_products_ids_without_variants db_fails l2 w) ∧
  (db_fails SelectProductsWithoutVariants = false ->
   get_products_ids_without_variants db_fails [] w = Done [] w).
Proof.
  unfold get_products_ids_without_variants. rewrite !execute_read. split.
  - intros Hsame. destruct (db_fails _); [reflexivity|]. do 2 f_equal.
    apply list_filter_iff. intros p. now rewrite Hsame.
  - intros ->. f_equal. cbn [fmap list_fmap].
    assert (Hnil : filter (λ p, product_id p ∈ @nil Z ∧
                                product_id p ∉
                                  variant_product_id <$> variants (database w))
                     (products (database w)) = []); [|now rewrite Hnil].
    apply elem_of_nil_inv. intros p Hp.
    apply list_elem_of_filter in Hp as [[Hin _] _]. inversion Hin.
Qed.

(** X12: [delete_categories] never deletes a product or a variant: after a
    run that ends normally the variants are as they were, the product table
    has the same ids in the same order, and a product either has the category
    it had or none. *)
Theorem delete_categories_keeps_products categories_ids manager
    (w w' : world Manager Webhook) u :
  delete_categories get_webhooks_for_event db_fails categories_ids manager w =
  Done u w' ->
  variants (database w') = variants (database w) ∧
  product_id <$> products (database w') = product_id <$> products (database w) ∧
  ∀ p', p' ∈ products (database w') ->
        ∃ p, p ∈ products (database w) ∧ product_id p' = product_id p ∧
             (product_category_id p' = product_category_id p ∨
              product_category_id p' = None).
Proof.
  intros Hdone. apply delete_categories_done in Hdone.
  pose proof (delete_categories_body_outcome get_webhooks_for_event db_fails
                categories_ids manager w) as Hrun.
  cbv zeta in Hrun. rewrite Hdone in Hrun. subst w'.
  cbn [database delete_rows update_unpublished variants products].
  split; [reflexivity|]. split.
  - rewrite <- list_fmap_compose. apply list_fmap_ext. intros i p _.
    unfold compose, clear_category.
    destruct (product_category_id p); [destruct (bool_decide _)|]; reflexivity.
  - intros p' (p & -> & Hp)%list_elem_of_fmap. exists p.
    split; [assumption|]. unfold clear_category.
    destruct (product_category_id p) eqn:Hk; [destruct (bool_decide _)|];
      cbn [product_id product_category_id]; auto.
Qed.

(** X13: what is collected for a category covers what is collected for each
    of its descendants: with one row per category key, every product the
    queryset of a descendant selects is selected by the queryset of the
    category, on every database state. *)
Theorem collect_categories_tree_products_covers_descendants category d
    (w : world Manager Webhook) q qd :
  NoDup (category_pk <$> categories (database w)) ->
  d ∈ get_descendants (database w) category ->
  collect_categories_tree_products db_fails category w = Done q w ->
  collect_categories_tree_products db_fails d w = Done qd w ->
  ∀ db p, p ∈ run_products db qd -> p ∈ run_products db q.
Proof.
  intros Hkeys Hd Hq Hqd db p.
  rewrite collect_run in Hq, Hqd.
  destruct (db_fails (SelectDescendants (category_pk category)));
    [discriminate|].
  destruct (db_fails (SelectDescendants (category_pk d))); [discriminate|].
  injection Hq as <-. injection Hqd as <-.
  rewrite !elem_of_run_products, !product_matches_tree.
  intros [Hsub Hp]. split; [|assumption].
  apply elem_of_get_descendants in Hd as [Hrow Hup].
  destruct (list_find_row _ _ Hkeys Hrow) as [i Hfind].
  right. destruct Hsub as [Hk|(e & He & Hk)].
  - exists d. split; [|assumption]. apply elem_of_get_descendants. auto.
  - exists e. split; [|assumption].
    apply elem_of_get_descendants in He as [Herow Heup].
    apply elem_of_get_descendants. split; [assumption|].
    eapply reaches_trans; eauto.
Qed.

End MoreUtilitiesFacts.

(** ** The further properties at work *)

(** A list that computes has no element twice. *)
Ltac no_dup :=
  lazymatch goal with
  | |- ?P => apply (@bool_decide_unpack P _); vm_compute; exact I
  end.

Lemma calculate_revenue_first_missing_key_witness :
  calculate_revenue_for_variant sample_variant sample_start
    (sample_lines ++
     mkOrderLine 3%N (mkMinorUnits 1 1 "USD") ::
     [mkOrderLine 4%N (mkMinorUnits 2 2 "USD")])
    sample_orders "USD" = Raise (KeyError 3%N).
Proof.
  apply (calculate_revenue_first_missing_key sample_variant sample_start
           sample_lines [mkOrderLine 4%N (mkMinorUnits 2 2 "USD")]
           (mkOrderLine 3%N (mkMinorUnits 1 1 "USD")) sample_orders "USD").
  - intros l [<-|[<-|[]]]; eexists; split; vm_compute; eauto.
  - vm_compute. reflexivity.
Defined.

Lemma calculate_revenue_reads_referenced_orders_witness :
  calculate_revenue_for_variant sample_variant sample_start sample_lines
    sample_orders "USD" =
  calculate_revenue_for_variant sample_variant sample_start sample_lines
    (<[7%N := mkOrder (aware_datetime 11)]> sample_orders) "USD".
Proof.
  apply (calculate_revenue_reads_referenced_orders sample_variant sample_start
           sample_lines sample_orders
           (<[7%N := mkOrder (aware_datetime 11)]> sample_orders) "USD").
  intros l [<-|[<-|[]]]; vm_compute; reflexivity.
Defined.

Lemma delete_categories_ids_as_set_witness :
  delete_categories sample_webhooks no_faults [1; 3; 1] tt sample_world =
  delete_categories sample_webhooks no_faults [3; 1] tt sample_world.
Proof.
  apply (delete_categories_ids_as_set sample_webhooks no_faults [1; 3; 1]
           [3; 1] tt sample_world).
  intros x. rewrite !elem_of_cons, !elem_of_nil. tauto.
Defined.

Lemma delete_categories_no_match_witness :
  ∃ w',
    delete_categories sample_webhooks no_faults [99] tt sample_world =
    Done tt w' ∧
    database w' = sample_db ∧
    trace w' =
    [Unpublished []; CategoriesDeleted [];
     Emitted (mark_active_catalogue_promotion_rules_as_dirty ∅)].
Proof.
  destruct (delete_categories sample_webhooks no_faults [99] tt sample_world)
    as [[] w'|e w'] eqn:Hrun; [|vm_compute in Hrun; discriminate].
  exists w'. split; [reflexivity|].
  apply (delete_categories_no_match sample_webhooks no_faults [99] tt
           sample_world w' tt); [|exact Hrun].
  intros c Hc Hin. apply list_elem_of_singleton in Hin.
  vm_compute in Hc.
  repeat (apply elem_of_cons in Hc as [->|Hc]; [discriminate|]).
  inversion Hc.
Defined.

Lemma delete_categories_listings_frame_witness :
  ∃ w',
    delete_categories sample_webhooks no_faults [1] tt sample_world =
    Done tt w' ∧
    mkProductChannelListing 102 12 7 true (Some 1) ∈
      channel_listings (database w').
Proof.
  destruct (delete_categories sample_webhooks no_faults [1] tt sample_world)
    as [[] w'|e w'] eqn:Hrun; [|vm_compute in Hrun; discriminate].
  exists w'. split; [reflexivity|].
  destruct (delete_categories_listings_frame sample_webhooks no_faults [1] tt
              sample_world w' tt Hrun) as [_ Hframe].
  apply Hframe; [in_list|].
  intros c p Hc Hids Hp Hsub.
  apply list_elem_of_singleton in Hids.
  vm_compute in Hc.
  repeat (apply elem_of_cons in Hc as [->|Hc];
          [try discriminate|]); [|inversion Hc].
  vm_compute in Hp.
  repeat (apply elem_of_cons in Hp as [->|Hp]; [|]); [| | | |inversion Hp];
    try discriminate.
  destruct Hsub as [Hk|(d & Hd & Hk)]; [discriminate|].
  vm_compute in Hd.
  repeat (apply elem_of_cons in Hd as [->|Hd]; [discriminate|]).
  inversion Hd.
Defined.

(** Category 1 is given twice, and with its descendant 3: each of the two
    categories and each of the two products has one event. *)
Lemma delete_categories_no_event_twice_witness :
  ∃ w' new,
    delete_categories sample_webhooks no_faults [1; 3; 1] tt sample_world =
    Done tt w' ∧
    trace w' = new ∧ NoDup new ∧ length new = 7%nat.
Proof.
  destruct (delete_categories sample_webhooks no_faults [1; 3; 1] tt
              sample_world) as [[] w'|e w'] eqn:Hrun;
    [|vm_compute in Hrun; discriminate].
  destruct (delete_categories_no_event_twice sample_webhooks no_faults
              [1; 3; 1] tt sample_world w' tt) as (new & Htrace & Hnodup);
    [no_dup|no_dup|exact Hrun|].
  exists w', new. repeat split; [exact Htrace|exact Hnodup|].
  vm_compute in Hrun. injection Hrun as <-. vm_compute in Htrace.
  subst new. reflexivity.
Defined.

Lemma delete_categories_event_payloads_witness :
  ∃ w',
    delete_categories sample_webhooks no_faults [1] tt sample_world =
    Done tt w' ∧
    Emitted (product_updated tt (mkProduct 11 (Some 3)) [2]) ∈ trace w' ∧
    mkProduct 11 (Some 3) ∈ products sample_db ∧
    ∃ c, c ∈ categories sample_db ∧ Some 3 = Some (category_pk c) ∧
         c ∉ categories (database w').
Proof.
  destruct (delete_categories sample_webhooks no_faults [1] tt sample_world)
    as [[] w'|e w'] eqn:Hrun; [|vm_compute in Hrun; discriminate].
  destruct (delete_categories_event_payloads sample_webhooks no_faults [1] tt
              sample_world w' tt Hrun) as (new & Htrace & _ & Hproducts).
  assert (Hin : Emitted (product_updated tt (mkProduct 11 (Some 3)) [2]) ∈ new).
  { cbn [trace sample_world app] in Htrace. rewrite <- Htrace.
    vm_compute in Hrun. injection Hrun as <-. in_list. }
  exists w'. split; [reflexivity|]. split.
  - rewrite Htrace. apply elem_of_app. now right.
  - destruct (Hproducts tt (mkProduct 11 (Some 3)) [2] Hin)
      as (_ & _ & Hp & Hc).
    split; [exact Hp|exact Hc].
Defined.

(** Product 12 is given twice and comes back once. *)
Lemma get_products_ids_without_variants_in_table_order_witness :
  get_products_ids_without_variants no_faults
    [mkProduct 13 None; mkProduct 12 None; mkProduct 12 None]
    sample_world = Done [12; 13] sample_world ∧
  [12; 13] `sublist_of` (product_id <$> products sample_db) ∧
  NoDup [12; 13].
Proof.
  assert (Hrun : get_products_ids_without_variants no_faults
                   [mkProduct 13 None; mkProduct 12 None; mkProduct 12 None]
                   sample_world = Done [12; 13] sample_world)
    by (vm_compute; reflexivity).
  destruct (get_products_ids_without_variants_in_table_order no_faults _
              sample_world sample_world [12; 13] Hrun) as [Hsub Hnodup].
  split; [exact Hrun|]. split; [exact Hsub|]. apply Hnodup. no_dup.
Defined.

Lemma delete_categories_keeps_products_witness :
  ∃ w',
    delete_categories sample_webhooks no_faults [1] tt sample_world =
    Done tt w' ∧
    variants (database w') = variants sample_db ∧
    product_id <$> products (database w') = [10; 11; 12; 13].
Proof.
  destruct (delete_categories sample_webhooks no_faults [1] tt sample_world)
    as [[] w'|e w'] eqn:Hrun; [|vm_compute in Hrun; discriminate].
  destruct (delete_categories_keeps_products sample_webhooks no_faults [1] tt
              sample_world w' tt Hrun) as (Hvariants & Hids & _).
  exists w'. split; [reflexivity|]. split; [exact Hvariants|].
  rewrite Hids. reflexivity.
Defined.

(** Category 2 is below category 1: what is collected for 2 (the product of
    category 3) is collected for 1. *)
Lemma collect_categories_tree_products_covers_descendants_witness :
  ∃ q qd,
    collect_categories_tree_products no_faults (mkCategory 1 None)
      sample_world = Done q sample_world ∧
    collect_categories_tree_products no_faults (mkCategory 2 (Some 1))
      sample_world = Done qd sample_world ∧
    run_products sample_db qd = [mkProduct 11 (Some 3)] ∧
    ∀ p, p ∈ run_products sample_db qd -> p ∈ run_products sample_db q.
Proof.
  eexists _, _. split; [vm_compute; reflexivity|].
  split; [vm_compute; reflexivity|]. split; [vm_compute; reflexivity|].
  apply (collect_categories_tree_products_covers_descendants no_faults
           (mkCategory 1 None) (mkCategory 2 (Some 1)) sample_world);
    [no_dup|in_list|vm_compute; reflexivity|vm_compute; reflexivity].
Defined.
